(** * Anime Scraper API: the aggregation endpoints of [lib/main-reference.py]

    A shallow embedding of the four request handlers ([search_anime],
    [get_episodes], [get_stream_urls], [get_seasons]) and the properties
    they satisfy.

    Conventions of the embedding.
    - A Python [str] is the list of its code points ([pystr]); [len] is the
      length of that list.
    - Python's [None] in an [Optional[str]] position is Rocq's [None].
    - Evaluating Python code either yields a value or raises ([pyres]).
      [asyncio.gather(..., return_exceptions=True)] stores a raised
      exception as an element of the result list; such an element is an
      [Exc _] entry of the list, and [isinstance(x, Exception)] is [is_exc].
    - A handler returns the provider operations it issued together with
      its HTTP response ([response]): either a body or an [HTTPException].
    - The [print] calls of the source only write to the log and are left
      out. *)

From Stdlib Require Import ZArith NArith List String Ascii Lia.
From Stdlib Require Import Sorting.Sorted Sorting.Permutation.
From stdpp Require Import base option list gmap.

Local Open Scope Z_scope.

(** ** Python strings *)

Definition pystr : Type := list N.

(** An ASCII literal of the source as a [pystr]. *)
Definition str (s : string) : pystr :=
  List.map N_of_ascii (list_ascii_of_string s).

(** The double quote character, U+0022. *)
Definition dquote : pystr := [34%N].

(** The line feed character, U+000A. *)
Definition newline : pystr := [10%N].

(** [str.isspace] on one code point: the characters [str.strip()] removes. *)
Definition isspace (c : N) : bool :=
  ((9 <=? c) && (c <=? 13) || (28 <=? c) && (c <=? 32)
   || (c =? 133) || (c =? 160) || (c =? 5760)
   || (8192 <=? c) && (c <=? 8202)
   || (c =? 8232) || (c =? 8233) || (c =? 8239) || (c =? 8287)
   || (c =? 12288))%N.

Fixpoint lstrip (s : pystr) : pystr :=
  match s with
  | c :: s' => if isspace c then lstrip s' else s
  | [] => []
  end.

Definition rstrip (s : pystr) : pystr := rev (lstrip (rev s)).

(** [s.strip()] *)
Definition strip (s : pystr) : pystr := lstrip (rstrip s).

(** [len(s)] *)
Definition len {A} (l : list A) : Z := Z.of_nat (length l).

(** Truth value of a [str]: non-empty. *)
Definition truthy_str (s : pystr) : bool :=
  match s with [] => false | _ :: _ => true end.

(** Truth value of an [Optional[str]]: neither [None] nor empty. *)
Definition truthy (x : option pystr) : bool :=
  match x with Some s => truthy_str s | None => false end.

(** [a or b] on [Optional[str]] operands. *)
Definition py_or (a b : option pystr) : option pystr :=
  if truthy a then a else b.

(** The string held by a request parameter that passed its truth test. *)
Definition the_str (x : option pystr) : pystr := default [] x.

(** ** Exceptions and results *)

(** A Python exception, identified with its [str(e)] text. *)
Inductive pyexc : Type := Exception (msg : pystr).

Definition exc_str (e : pyexc) : pystr := let 'Exception m := e in m.

(** [KeyError(k)]: [str] of a [KeyError] is the [repr] of the key. *)
Definition KeyError (k : pystr) : pyexc :=
  Exception (str "'" ++ k ++ str "'").

Definition IndexError : pyexc := Exception (str "list index out of range").

Definition TypeError_not_iterable : pyexc :=
  Exception (str "'Exception' object is not iterable").

Inductive pyres (A : Type) : Type :=
| Val (a : A)
| Exc (e : pyexc).
Arguments Val {A} a.
Arguments Exc {A} e.

(** Sequencing: an exception raised by [m] skips the continuation. *)
Definition bind {A B} (m : pyres A) (f : A → pyres B) : pyres B :=
  match m with Val a => f a | Exc e => Exc e end.

Notation "'let*' x ':=' m 'in' k" := (bind m (λ x, k))
  (at level 10, x name, m at level 100, k at level 200,
   format "'[v' 'let*'  x  ':='  m  'in'  '/' k ']'").

(** [isinstance(x, Exception)] on an element of a gathered result list. *)
Definition is_exc {A} (r : pyres A) : bool :=
  match r with Exc _ => true | Val _ => false end.

(** [raise HTTPException(status_code=..., detail=...)] or a returned body. *)
Inductive response (A : Type) : Type :=
| Ok (body : A)
| HTTPException (status_code : Z) (detail : pystr).
Arguments Ok {A} body.
Arguments HTTPException {A} status_code detail.

(** The [try: ... except Exception as e: raise HTTPException(500, ...)]
    wrapper around a handler body; [prefix] is the text before [str(e)]. *)
Definition try_500 {A} (prefix : pystr) (body : pyres A) : response A :=
  match body with
  | Val a => Ok a
  | Exc e => HTTPException 500 (prefix ++ exc_str e)
  end.

(** ** Provider adapters *)

(** One element of a provider's episode list: a dictionary.  A field is
    [None] when the key is absent and [Some v] when it is present with
    value [v]; the episode number is an [int], the other values are
    [Optional[str]]. *)
Record RawEpisode : Type := mkRawEpisode {
  raw_episode_number : option Z;
  raw_id : option (option pystr);
  raw_url : option (option pystr);
  raw_stream_url : option (option pystr)
}.

(** What [get_stream_url] hands back: [None], a URL string, or a
    dictionary with [Optional[str]] values. *)
Inductive StreamValue : Type :=
| PyNone
| PyStr (s : pystr)
| PyDict (d : gmap pystr (option pystr)).

Inductive method : Type := m_search | m_get_episodes | m_get_stream_url.

(** A provider operation issued by a handler. *)
Record call : Type := Call {
  call_scraper : pystr;
  call_method : method;
  call_arg : pystr
}.

(** A created coroutine: the operation and what awaiting it produces. *)
Definition task (A : Type) : Type := (call * pyres A)%type.

(** [await asyncio.gather( *tasks, return_exceptions=True)]: one entry per
    task, in task order; a raised exception becomes the entry. *)
Definition gather {A} (tasks : list (task A)) : list (pyres A) :=
  List.map snd tasks.

Definition issued {A} (tasks : list (task A)) : list call :=
  List.map fst tasks.

(** [results[i]] *)
Definition getitem {A} (results : list A) (i : nat) : pyres A :=
  match results !! i with
  | Some r => Val r
  | None => Exc IndexError
  end.

(** [results[-1]] *)
Definition getitem_last {A} (results : list A) : pyres A :=
  match last results with
  | Some r => Val r
  | None => Exc IndexError
  end.

(** ** Response records *)

(** The per-source availability dictionary
    [{"available": ..., "url": ..., "id": ...}]. *)
Record SourceAvailability : Type := mkAvail {
  available : bool;
  url : option pystr;
  id_ : option pystr
}.

(** The dictionary [{"episode_number": ..., "sources": {...}}]. *)
Record EpisodeResult : Type := mkEpisode {
  episode_number : Z;
  sources : gmap pystr SourceAvailability
}.

(** [{"available": False, "url": None, "id": None}] *)
Definition unavailable : SourceAvailability :=
  {| available := false; url := None; id_ := None |}.

(** [ep["episode_number"]] *)
Definition ep_episode_number (ep : RawEpisode) : pyres Z :=
  match raw_episode_number ep with
  | Some n => Val n
  | None => Exc (KeyError (str "episode_number"))
  end.

(** [ep["id"]] *)
Definition ep_id (ep : RawEpisode) : pyres (option pystr) :=
  match raw_id ep with
  | Some v => Val v
  | None => Exc (KeyError (str "id"))
  end.

(** [ep.get(key)]: [None] when the key is absent. *)
Definition dict_get (field : option (option pystr)) : option pystr :=
  default None field.

(** [{"available": True, "url": ep.get("url") or ep.get("stream_url"),
      "id": ep["id"]}] *)
Definition available_from (ep : RawEpisode) : pyres SourceAvailability :=
  let* i := ep_id ep in
  Val {| available := true;
          url := py_or (dict_get (raw_url ep)) (dict_get (raw_stream_url ep));
          id_ := i |}.

(** ** Insertion-ordered dictionaries keyed by episode number *)

Definition pydict (V : Type) : Type := list (Z * V).

Section PyDict.
Context {V : Type}.

(** [d.get(k)] *)
Fixpoint pydict_lookup (k : Z) (d : pydict V) : option V :=
  match d with
  | [] => None
  | (k', v) :: d' => if Z.eqb k' k then Some v else pydict_lookup k d'
  end.

(** [k in d] *)
Definition pydict_mem (k : Z) (d : pydict V) : bool :=
  match pydict_lookup k d with Some _ => true | None => false end.

(** In-place change of the value stored under [k]; the position of the
    key is kept. *)
Fixpoint pydict_update (k : Z) (f : V → V) (d : pydict V) : pydict V :=
  match d with
  | [] => []
  | (k', v) :: d' =>
      if Z.eqb k' k then (k', f v) :: d' else (k', v) :: pydict_update k f d'
  end.

(** [d[k] = v]: a fresh key goes to the end. *)
Definition pydict_setitem (k : Z) (v : V) (d : pydict V) : pydict V :=
  if pydict_mem k d then pydict_update k (λ _, v) d else d ++ [(k, v)].

(** [d.values()] *)
Definition pydict_values (d : pydict V) : list V := List.map snd d.

Definition pydict_keys (d : pydict V) : list Z := List.map fst d.

End PyDict.

(** ** [sorted(..., key=...)]: a stable sort on integer keys *)

Section Sorted.
Context {A : Type} (key : A → Z).

(** [x] is placed before the first element whose key is not below its own. *)
Fixpoint insert_by (x : A) (l : list A) : list A :=
  match l with
  | [] => [x]
  | y :: l' => if key y <? key x then y :: insert_by x l' else x :: y :: l'
  end.

Definition sorted (l : list A) : list A := foldr insert_by [] l.

End Sorted.

(** A [for] loop whose body may raise, threading the loop state. *)
Fixpoint for_each {A S : Type} (body : A → S → pyres S) (l : list A) (s : S)
    : pyres S :=
  match l with
  | [] => Val s
  | x :: l' => let* s' := body x s in for_each body l' s'
  end.

(** The per-source stream dictionary
    [{"available": ..., "stream_url": ..., "embed": ...}]. *)
Record StreamSource : Type := mkStream {
  stream_available : bool;
  stream_url : option pystr;
  embed : option pystr
}.

(** [{"available": False, "stream_url": None, "embed": None}] *)
Definition no_stream : StreamSource :=
  {| stream_available := false; stream_url := None; embed := None |}.

(** A value stored under a source name in [season_result]: the flat list
    kept for AnimeWorld, or the dictionary from season label to episode
    list kept for AnimeSaturn. *)
Inductive SeasonValue : Type :=
| SeasonList (episodes : list EpisodeResult)
| SeasonDict (seasons : gmap pystr (list EpisodeResult)).

(** [d.get(key)] on a stream dictionary. *)
Definition stream_get (d : gmap pystr (option pystr)) (key : pystr)
    : option pystr :=
  default None (d !! key).

(** Truth value of what [get_stream_url] returned. *)
Definition truthy_value (v : StreamValue) : bool :=
  match v with
  | PyNone => false
  | PyStr s => truthy_str s
  | PyDict d => negb (bool_decide (d = ∅))
  end.

Definition AttributeError_get : pyexc :=
  Exception (str "'NoneType' object has no attribute 'get'").

(** [v if isinstance(v, str) else v.get("stream_url")] *)
Definition url_of (v : StreamValue) : pyres (option pystr) :=
  match v with
  | PyStr s => Val (Some s)
  | PyDict d => Val (stream_get d (str "stream_url"))
  | PyNone => Exc AttributeError_get
  end.

(** [v.get("embed") if isinstance(v, dict) else None] *)
Definition embed_of (v : StreamValue) : option pystr :=
  match v with
  | PyDict d => stream_get d (str "embed")
  | _ => None
  end.

(** [name="value"] inside a tag. *)
Definition attr (name value : pystr) : pystr :=
  name ++ str "=" ++ dquote ++ value ++ dquote.

(** The f-string
    [<iframe src="{url}" width="560" height="315" scrolling="no"
      frameborder="0" allowfullscreen></iframe>]. *)
Definition iframe_embed (url : pystr) : pystr :=
  str "<iframe " ++ attr (str "src") url
  ++ str " " ++ attr (str "width") (str "560")
  ++ str " " ++ attr (str "height") (str "315")
  ++ str " " ++ attr (str "scrolling") (str "no")
  ++ str " " ++ attr (str "frameborder") (str "0")
  ++ str " allowfullscreen></iframe>".

(** [f"https://animesaturn-proxy.onrender.com/proxy?url={url}"] *)
Definition proxy_url (url : pystr) : pystr :=
  str "https://animesaturn-proxy.onrender.com/proxy?url=" ++ url.

(** The triple-quoted [<video ...>] f-string around [proxy_url]. *)
Definition video_embed (url : pystr) : pystr :=
  str "<video " ++ newline
  ++ str "    " ++ attr (str "src") (proxy_url url) ++ str " " ++ newline
  ++ str "    " ++ attr (str "class") (str "w-full h-full") ++ str " " ++ newline
  ++ str "    controls " ++ newline
  ++ str "    playsinline " ++ newline
  ++ str "    " ++ attr (str "preload") (str "metadata") ++ str " " ++ newline
  ++ str "    autoplay>" ++ newline
  ++ str "</video>".

(** A list comprehension-like loop whose body may raise. *)
Fixpoint map_res {A B : Type} (f : A → pyres B) (l : list A) : pyres (list B) :=
  match l with
  | [] => Val []
  | x :: l' => let* y := f x in let* ys := map_res f l' in Val (y :: ys)
  end.

(** The two configured source names. *)
Definition AnimeWorld : pystr := str "AnimeWorld".
Definition AnimeSaturn : pystr := str "AnimeSaturn".

Section Api.

(** Result shapes of [search] and of [utils.detect_duplicates]; the
    scrapers and [utils] are external to the handlers. *)
Variables RawSearch SearchResult : Type.

Record Scraper : Type := mkScraper {
  scraper_search : pystr → pyres (list RawSearch);
  scraper_get_episodes : pystr → pyres (list RawEpisode);
  scraper_get_stream_url : pystr → pyres StreamValue
}.

(** The two module-level scraper instances and [utils.detect_duplicates]. *)
Variables animeworld_scraper animesaturn_scraper : Scraper.
Variable detect_duplicates :
  list RawSearch → list RawSearch → pyres (list SearchResult).

(** ** [GET /] *)

(** [{"message": "Anime Scraper API", "version": "1.0.0"}] *)
Definition root : gmap pystr pystr :=
  <[str "message" := str "Anime Scraper API"]>
    (<[str "version" := str "1.0.0"]> ∅).

(** ** [GET /search] *)

Definition search_results (results : list (pyres (list RawSearch)))
    : pyres (list SearchResult) :=
  let* r0 := getitem results 0 in
  let animeworld_results := match r0 with Val l => l | Exc _ => [] end in
  let* r1 := getitem results 1 in
  let animesaturn_results := match r1 with Val l => l | Exc _ => [] end in
  detect_duplicates animeworld_results animesaturn_results.

Definition search_anime (q : pystr)
    : list call * response (list SearchResult) :=
  if negb (truthy_str q) || (len (strip q) <? 2) then
    ([], HTTPException 400 (str "Query must be at least 2 characters long"))
  else
    let tasks :=
      [ (Call AnimeWorld m_search q, scraper_search animeworld_scraper q);
        (Call AnimeSaturn m_search q, scraper_search animesaturn_scraper q) ] in
    let results := gather tasks in
    (issued tasks, try_500 (str "Search failed: ") (search_results results)).

(** ** [GET /episodes] *)

(** The body of the two [for ep in results[...]] loops; they differ only in
    the source name written into ["sources"]. *)
Definition scan_episode (source : pystr) (ep : RawEpisode)
    (all_episodes : pydict EpisodeResult) : pyres (pydict EpisodeResult) :=
  let* ep_num := ep_episode_number ep in
  let all_episodes :=
    if negb (pydict_mem ep_num all_episodes) then
      pydict_setitem ep_num
        {| episode_number := ep_num; sources := ∅ |} all_episodes
    else all_episodes in
  let* av := available_from ep in
  Val (pydict_update ep_num
          (λ r, {| episode_number := episode_number r;
                   sources := <[source := av]> (sources r) |})
          all_episodes).

(** [for ep in r: ...] where [r] is an entry of the gathered list. *)
Definition scan_source (source : pystr) (r : pyres (list RawEpisode))
    (all_episodes : pydict EpisodeResult) : pyres (pydict EpisodeResult) :=
  match r with
  | Val items => for_each (scan_episode source) items all_episodes
  | Exc _ => Exc TypeError_not_iterable
  end.

(** "Fill in missing sources as unavailable", for one record. *)
Definition fill_missing (ep_data : EpisodeResult) : EpisodeResult :=
  foldl (λ r source,
           match sources r !! source with
           | None => {| episode_number := episode_number r;
                        sources := <[source := unavailable]> (sources r) |}
           | Some _ => r
           end)
        ep_data [AnimeWorld; AnimeSaturn].

(** [1 if AW else 0] *)
Definition result_idx (AW : option pystr) : nat :=
  if truthy AW then 1%nat else 0%nat.

(** [AW and len(results) > 0 and not isinstance(results[0], Exception)] *)
Definition first_usable {A} (AW : option pystr) (results : list (pyres A))
    : pyres bool :=
  if truthy AW then
    if 0 <? len results then
      let* r := getitem results 0 in Val (negb (is_exc r))
    else Val false
  else Val false.

(** [AS and len(results) > (1 if AW else 0)
     and not isinstance(results[-1], Exception)] *)
Definition last_usable {A} (AW AS : option pystr) (results : list (pyres A))
    : pyres bool :=
  if truthy AS then
    if Z.of_nat (result_idx AW) <? len results then
      let* r := getitem_last results in Val (negb (is_exc r))
    else Val false
  else Val false.

(** The handler body after [gather]. *)
Definition merge_episodes (AW AS : option pystr)
    (results : list (pyres (list RawEpisode))) : pyres (list EpisodeResult) :=
  let all_episodes : pydict EpisodeResult := [] in
  let* use_aw := first_usable AW results in
  let* all_episodes :=
    (if use_aw then
       let* r := getitem results 0 in
       scan_source AnimeWorld r all_episodes
     else Val all_episodes) in
  let* use_as := last_usable AW AS results in
  let* all_episodes :=
    (if use_as then
       let* r := getitem results (result_idx AW) in
       scan_source AnimeSaturn r all_episodes
     else Val all_episodes) in
  let all_episodes :=
    List.map (λ kv, (fst kv, fill_missing (snd kv))) all_episodes in
  Val (sorted episode_number (pydict_values all_episodes)).

(** The task list shared by [/episodes] and [/seasons]. *)
Definition episode_tasks (AW AS : option pystr) : list (task (list RawEpisode)) :=
  (if truthy AW then
     [ (Call AnimeWorld m_get_episodes (the_str AW),
        scraper_get_episodes animeworld_scraper (the_str AW)) ]
   else [])
  ++
  (if truthy AS then
     [ (Call AnimeSaturn m_get_episodes (the_str AS),
        scraper_get_episodes animesaturn_scraper (the_str AS)) ]
   else []).

Definition get_episodes (AW AS : option pystr)
    : list call * response (list EpisodeResult) :=
  if negb (truthy AW) && negb (truthy AS) then
    ([], HTTPException 400
           (str "At least one source ID (AW or AS) must be provided"))
  else
    let tasks := episode_tasks AW AS in
    let results := gather tasks in
    (issued tasks,
     try_500 (str "Failed to get episodes: ") (merge_episodes AW AS results)).

(** ** [GET /stream] *)

(** Modelled from the spec: the response class [models.StreamResult] is
    not part of the sources; per the interface section it is the
    per-source stream availability record, so its constructor keeps the
    keyword dictionary as the response body. *)
Definition StreamResult (kwargs : gmap pystr StreamSource)
    : pyres (gmap pystr StreamSource) := Val kwargs.

(** "Process AnimeWorld result". *)
Definition stream_animeworld (AW : option pystr)
    (results : list (pyres StreamValue))
    (stream_result : gmap pystr StreamSource)
    : pyres (gmap pystr StreamSource) :=
  let* use_aw := first_usable AW results in
  if use_aw then
    let* r := getitem results 0 in
    match r with
    | Exc _ => Exc AttributeError_get
    | Val v =>
        if truthy_value v then
          let* url := url_of v in
          Val (<[AnimeWorld :=
                   {| stream_available := true;
                      stream_url := url;
                      embed := if truthy url
                               then Some (iframe_embed (the_str url))
                               else None |}]> stream_result)
        else Val stream_result
    end
  else Val stream_result.

(** The AnimeSaturn branch.  The source also computes [provider], which
    it never uses; [embed_html] is the scraper's own markup when there is
    one, the video markup otherwise. *)
Definition stream_animesaturn (AW AS : option pystr)
    (results : list (pyres StreamValue))
    (stream_result : gmap pystr StreamSource)
    : pyres (gmap pystr StreamSource) :=
  let* use_as := last_usable AW AS results in
  if use_as then
    let* data := getitem results (result_idx AW) in
    match data with
    | Exc _ => Exc AttributeError_get
    | Val data =>
        if truthy_value data then
          let* url := url_of data in
          let embed_html := embed_of data in
          let embed_html :=
            if negb (truthy embed_html) && truthy url
            then Some (video_embed (the_str url))
            else embed_html in
          Val (<[AnimeSaturn :=
                   {| stream_available := true;
                      stream_url := url;
                      embed := embed_html |}]> stream_result)
        else Val stream_result
    end
  else Val stream_result.

Definition stream_body (AW AS : option pystr)
    (results : list (pyres StreamValue)) : pyres (gmap pystr StreamSource) :=
  let stream_result : gmap pystr StreamSource :=
    <[AnimeWorld := no_stream]> (<[AnimeSaturn := no_stream]> ∅) in
  let* stream_result := stream_animeworld AW results stream_result in
  let* stream_result := stream_animesaturn AW AS results stream_result in
  StreamResult stream_result.

Definition stream_tasks (AW AS : option pystr) : list (task StreamValue) :=
  (if truthy AW then
     [ (Call AnimeWorld m_get_stream_url (the_str AW),
        scraper_get_stream_url animeworld_scraper (the_str AW)) ]
   else [])
  ++
  (if truthy AS then
     [ (Call AnimeSaturn m_get_stream_url (the_str AS),
        scraper_get_stream_url animesaturn_scraper (the_str AS)) ]
   else []).

Definition get_stream_urls (AW AS : option pystr)
    : list call * response (gmap pystr StreamSource) :=
  if negb (truthy AW) && negb (truthy AS) then
    ([], HTTPException 400
           (str "At least one episode ID (AW or AS) must be provided"))
  else
    let tasks := stream_tasks AW AS in
    let results := gather tasks in
    (issued tasks,
     try_500 (str "Failed to get stream URLs: ") (stream_body AW AS results)).

(** ** [GET /seasons] *)

(** Modelled from the spec: the response class [models.SeasonResult] is
    not part of the sources; per the interface section it is the
    per-source season grouping, so its constructor keeps the keyword
    dictionary as the response body. *)
Definition SeasonResult (kwargs : gmap pystr SeasonValue)
    : pyres (gmap pystr SeasonValue) := Val kwargs.

(** The [episode = {...}] dictionary built in both loops: [own] is the
    source being processed, [other] the one marked unavailable. *)
Definition season_episode (own other : pystr) (ep : RawEpisode)
    : pyres EpisodeResult :=
  let* n := ep_episode_number ep in
  let* av := available_from ep in
  Val {| episode_number := n;
         sources := <[own := av]> (<[other := unavailable]> ∅) |}.

(** [for ep in r: ... append(episode)] for an entry [r] of the gathered
    list. *)
Definition season_list (own other : pystr) (r : pyres (list RawEpisode))
    : pyres (list EpisodeResult) :=
  match r with
  | Val items => map_res (season_episode own other) items
  | Exc _ => Exc TypeError_not_iterable
  end.

(** The handler body after [gather].  The list under ["AnimeWorld"] and
    the dictionary under ["AnimeSaturn"] are still empty when their branch
    runs, so appending every episode, resp. setting ["S1"], gives the
    values stored here. *)
Definition seasons_body (AW AS : option pystr)
    (results : list (pyres (list RawEpisode))) : pyres (gmap pystr SeasonValue) :=
  let season_result : gmap pystr SeasonValue :=
    <[AnimeWorld := SeasonList []]> (<[AnimeSaturn := SeasonDict ∅]> ∅) in
  let* use_aw := first_usable AW results in
  let* season_result :=
    (if use_aw then
       let* r := getitem results 0 in
       let* episodes := season_list AnimeWorld AnimeSaturn r in
       Val (<[AnimeWorld := SeasonList episodes]> season_result)
     else Val season_result) in
  let* use_as := last_usable AW AS results in
  let* season_result :=
    (if use_as then
       let* as_data := getitem results (result_idx AW) in
       let* season_episodes := season_list AnimeSaturn AnimeWorld as_data in
       Val (<[AnimeSaturn := SeasonDict (<[str "S1" := season_episodes]> ∅)]>
              season_result)
     else Val season_result) in
  SeasonResult season_result.

Definition get_seasons (AW AS : option pystr)
    : list call * response (gmap pystr SeasonValue) :=
  if negb (truthy AW) && negb (truthy AS) then
    ([], HTTPException 400
           (str "At least one source ID (AW or AS) must be provided"))
  else
    let tasks := episode_tasks AW AS in
    let results := gather tasks in
    (issued tasks,
     try_500 (str "Failed to get seasons: ") (seasons_body AW AS results)).

End Api.

Arguments mkScraper {RawSearch} _ _ _.
Arguments scraper_search {RawSearch} _ _.
Arguments scraper_get_episodes {RawSearch} _ _.
Arguments scraper_get_stream_url {RawSearch} _ _.
Arguments search_results {RawSearch SearchResult} detect_duplicates results.
Arguments search_anime {RawSearch SearchResult}
  animeworld_scraper animesaturn_scraper detect_duplicates q.
Arguments episode_tasks {RawSearch} animeworld_scraper animesaturn_scraper AW AS.
Arguments get_episodes {RawSearch} animeworld_scraper animesaturn_scraper AW AS.
Arguments stream_tasks {RawSearch} animeworld_scraper animesaturn_scraper AW AS.
Arguments get_stream_urls {RawSearch} animeworld_scraper animesaturn_scraper AW AS.
Arguments get_seasons {RawSearch} animeworld_scraper animesaturn_scraper AW AS.

(** ** Notions used to state the properties *)

(** The two updates [scan_episode] applies to a record. *)
Definition set_source (source : pystr) (av : SourceAvailability)
    (r : EpisodeResult) : EpisodeResult :=
  {| episode_number := episode_number r;
     sources := <[source := av]> (sources r) |}.

Definition fresh_record (n : Z) : EpisodeResult :=
  {| episode_number := n; sources := ∅ |}.

(** The dictionary as a function from episode number to ["sources"]. *)
Definition view (d : pydict EpisodeResult) (k : Z)
    : option (gmap pystr SourceAvailability) :=
  sources <$> pydict_lookup k d.

(** Keys are unique and each record stores its own key. *)
Definition keyed (d : pydict EpisodeResult) : Prop :=
  NoDup (pydict_keys d) ∧
  ∀ k r, pydict_lookup k d = Some r → episode_number r = k.

Definition key_le {A} (key : A → Z) (a b : A) : Prop := key a ≤ key b.
Definition key_lt {A} (key : A → Z) (a b : A) : Prop := key a < key b.

(** The availability entry the loops write for an item. *)
Definition availability (ep : RawEpisode) : SourceAvailability :=
  {| available := true;
     url := py_or (dict_get (raw_url ep)) (dict_get (raw_stream_url ep));
     id_ := dict_get (raw_id ep) |}.

(** An item carries the two keys the loops read with [ep[...]]. *)
Definition well_formed (ep : RawEpisode) : Prop :=
  is_Some (raw_episode_number ep) ∧ is_Some (raw_id ep).

(** The last item of a sequence that has episode number [n]. *)
Fixpoint last_with (n : Z) (items : list RawEpisode) : option RawEpisode :=
  match items with
  | [] => None
  | ep :: items' =>
      match last_with n items' with
      | Some e => Some e
      | None =>
          if bool_decide (raw_episode_number ep = Some n) then Some ep else None
      end
  end.

(** What a source's sequence says about episode [n]. *)
Definition slot (items : list RawEpisode) (n : Z) : SourceAvailability :=
  match last_with n items with
  | Some ep => availability ep
  | None => unavailable
  end.

(** The gathered entry a handler uses for a source: the provider's value
    when the source was named in the request and the call succeeded. *)
Definition usable {A} (supplied : option pystr) (r : pyres A) : option A :=
  if truthy supplied then match r with Val v => Some v | Exc _ => None end
  else None.

(** The sequence a source contributes to the episode merge. *)
Definition reported (supplied : option pystr) (r : pyres (list RawEpisode))
    : list RawEpisode :=
  default [] (usable supplied r).

(** [r] is the record the season loops build from item [ep] of source
    [own]. *)
Definition season_entry (own other : pystr) (ep : RawEpisode)
    (r : EpisodeResult) : Prop :=
  raw_episode_number ep = Some (episode_number r) ∧
  sources r = <[own := availability ep]> (<[other := unavailable]> ∅).

(** The merge of two contributed sequences, as the handler performs it once
    it has decided which gathered entries to use. *)
Definition merge_lists (la ls : list RawEpisode) : pyres (list EpisodeResult) :=
  let* d1 := for_each (scan_episode AnimeWorld) la [] in
  let* d2 := for_each (scan_episode AnimeSaturn) ls d1 in
  Val (sorted episode_number
         (pydict_values (List.map (λ kv, (fst kv, fill_missing (snd kv))) d2))).

(** The entries of the gathered list for the tasks a request creates. *)
Definition gathered {A} (AW AS : option pystr) (ra rs : pyres A)
    : list (pyres A) :=
  (if truthy AW then [ra] else []) ++ (if truthy AS then [rs] else []).

(** The URL a truthy stream value carries. *)
Definition stream_url_of (v : StreamValue) : option pystr :=
  match v with
  | PyStr s => Some s
  | PyDict d => stream_get d (str "stream_url")
  | PyNone => None
  end.

(** The AnimeWorld entry of the stream response, from the entry the
    handler uses (if any). *)
Definition world_stream (o : option StreamValue) : StreamSource :=
  match o with
  | Some v =>
      if truthy_value v then
        {| stream_available := true;
           stream_url := stream_url_of v;
           embed := if truthy (stream_url_of v)
                    then Some (iframe_embed (the_str (stream_url_of v)))
                    else None |}
      else no_stream
  | None => no_stream
  end.

(** The AnimeSaturn entry of the stream response. *)
Definition saturn_stream (o : option StreamValue) : StreamSource :=
  match o with
  | Some v =>
      if truthy_value v then
        {| stream_available := true;
           stream_url := stream_url_of v;
           embed := if negb (truthy (embed_of v)) && truthy (stream_url_of v)
                    then Some (video_embed (the_str (stream_url_of v)))
                    else embed_of v |}
      else no_stream
  | None => no_stream
  end.

(** ** Sample providers and payloads *)

(** An episode item with the two mandatory keys only. *)
Definition item (n : Z) (i : string) : RawEpisode :=
  {| raw_episode_number := Some n; raw_id := Some (Some (str i));
     raw_url := None; raw_stream_url := None |}.

(** An episode item that also has a ["url"]. *)
Definition item_url (n : Z) (i u : string) : RawEpisode :=
  {| raw_episode_number := Some n; raw_id := Some (Some (str i));
     raw_url := Some (Some (str u)); raw_stream_url := None |}.

(** An item without ["id"]. *)
Definition item_no_id (n : Z) : RawEpisode :=
  {| raw_episode_number := Some n; raw_id := None;
     raw_url := None; raw_stream_url := None |}.

(** A provider whose answers do not depend on the identifier asked for. *)
Definition fixed_scraper (found : pyres (list pystr))
    (episodes : pyres (list RawEpisode)) (stream : pyres StreamValue)
    : Scraper pystr :=
  {| scraper_search := λ _, found;
     scraper_get_episodes := λ _, episodes;
     scraper_get_stream_url := λ _, stream |}.

(** A provider all of whose operations fail. *)
Definition down : Scraper pystr :=
  fixed_scraper (Exc (Exception (str "timeout")))
    (Exc (Exception (str "timeout"))) (Exc (Exception (str "timeout"))).

Definition episodes_scraper (episodes : list RawEpisode) : Scraper pystr :=
  fixed_scraper (Val []) (Val episodes) (Val PyNone).

Definition stream_scraper (stream : StreamValue) : Scraper pystr :=
  fixed_scraper (Val []) (Val []) (Val stream).

(** The availability entry of an item that has an id and no URL. *)
Definition by_id (i : string) : SourceAvailability :=
  {| available := true; url := None; id_ := Some (str i) |}.

(** An output record with the given two entries. *)
Definition record (n : Z) (world saturn : SourceAvailability) : EpisodeResult :=
  {| episode_number := n;
     sources := <[AnimeWorld := world]> (<[AnimeSaturn := saturn]> ∅) |}.

(** Two request identifiers. *)
Definition some_aw : option pystr := Some (str "naruto.aw").
Definition some_as : option pystr := Some (str "naruto-as").

(** A stream dictionary with a URL and its own embed markup. *)
Definition stream_with_embed : StreamValue :=
  PyDict (<[str "stream_url" := Some (str "https://cdn/ep1.mp4")]>
            (<[str "embed" := Some (str "<video src=x>")]> ∅)).

(** A stream dictionary with a provider label only. *)
Definition stream_without_url : StreamValue :=
  PyDict (<[str "provider" := Some (str "AnimeWorld")]> ∅).

(** A stand-in for [utils.detect_duplicates]: plain concatenation. *)
Definition concat_titles (a b : list pystr) : pyres (list pystr) :=
  Val (a ++ b).

(** ** Further notions *)

(** The episode numbers a sequence carries, in order. *)
Definition numbers (items : list RawEpisode) : list Z :=
  omap raw_episode_number items.

(** [r if not isinstance(r, Exception) else []] *)
Definition or_empty {A} (r : pyres (list A)) : list A :=
  match r with Val l => l | Exc _ => [] end.

(** One operation per named source, AnimeWorld first. *)
Definition named_calls (m : method) (AW AS : option pystr) : list call :=
  (if truthy AW then [Call AnimeWorld m (the_str AW)] else [])
  ++ (if truthy AS then [Call AnimeSaturn m (the_str AS)] else []).

(** The key whose absence stops the loops: the first item, in reading
    order, that lacks ["episode_number"] or, having it, lacks ["id"]. *)
Fixpoint first_missing (items : list RawEpisode) : option pystr :=
  match items with
  | [] => None
  | ep :: items' =>
      match raw_episode_number ep, raw_id ep with
      | None, _ => Some (str "episode_number")
      | Some _, None => Some (str "id")
      | Some _, Some _ => first_missing items'
      end
  end.

(** Every character of [s] is one that [strip] removes. *)
Definition blank (s : pystr) : Prop := Forall (λ c, isspace c = true) s.

(** An item without ["episode_number"]. *)
Definition item_no_number (i : string) : RawEpisode :=
  {| raw_episode_number := None; raw_id := Some (Some (str i));
     raw_url := None; raw_stream_url := None |}.

(** A provider that finds the given titles. *)
Definition titles_scraper (titles : list pystr) : Scraper pystr :=
  fixed_scraper (Val titles) (Val []) (Val PyNone).

(** ** The data of an item, in the specification's words *)

(** The reference URL of an item: its primary URL field and, when that is
    absent, [None] or empty, its stream-URL field ([None] if that is
    absent too). *)
Definition reference_url (ep : RawEpisode) : option pystr :=
  match raw_url ep with
  | Some (Some (c :: u)) => Some (c :: u)
  | _ => match raw_stream_url ep with Some v => v | None => None end
  end.

(** The source item identifier. *)
Definition item_id (ep : RawEpisode) : option pystr :=
  match raw_id ep with Some i => i | None => None end.

(** The availability sub-record of a source that reported item [ep]. *)
Definition entry_for (ep : RawEpisode) : SourceAvailability :=
  {| available := true; url := reference_url ep; id_ := item_id ep |}.

(** [e] is the last item of [items] numbered [n]. *)
Definition last_item (n : Z) (items : list RawEpisode) (e : RawEpisode) : Prop :=
  ∃ before after,
    items = before ++ e :: after ∧
    raw_episode_number e = Some n ∧
    ∀ e', e' ∈ after → raw_episode_number e' ≠ Some n.

(** The sub-record a source's sequence gives for episode [n]: that of its
    last item numbered [n], the unavailable one when it has none. *)
Definition last_entry (items : list RawEpisode) (n : Z) : SourceAvailability :=
  match last_with n items with
  | Some e => entry_for e
  | None => unavailable
  end.

(** Record [r] is item [ep] as [source] reported it, with [failed] marked
    unavailable. *)
Definition reported_as (source failed : pystr) (ep : RawEpisode)
    (r : EpisodeResult) : Prop :=
  raw_episode_number ep = Some (episode_number r) ∧
  sources r = <[source := entry_for ep]> (<[failed := unavailable]> ∅).

(** The episodes answer when only [source] contributes: strictly ascending
    numbers; every record is the last item reported with its number; every
    reported number has its record; and the answer is the reported sequence
    itself, item by item, when that sequence is strictly ascending. *)
Definition survivor_episodes (source failed : pystr) (items : list RawEpisode)
    (out : list EpisodeResult) : Prop :=
  StronglySorted Z.lt (episode_number <$> out) ∧
  (∀ r, r ∈ out →
     ∃ e, last_item (episode_number r) items e ∧ reported_as source failed e r) ∧
  (∀ e, e ∈ items →
     ∃ r, r ∈ out ∧ raw_episode_number e = Some (episode_number r)) ∧
  (StronglySorted Z.lt (numbers items) →
   Forall2 (reported_as source failed) items out).

(** An item with a ["stream_url"] and no ["url"]. *)
Definition item_stream (n : Z) (i u : string) : RawEpisode :=
  {| raw_episode_number := Some n; raw_id := Some (Some (str i));
     raw_url := None; raw_stream_url := Some (Some (str u)) |}.

(** * Properties *)

(** Equality of two maps built from insertions, key by key. *)
Ltac map_ext :=
  apply map_eq; intros ?;
  repeat (rewrite lookup_insert; case_decide); subst; done.

(** ** Sorting *)

Section SortedFacts.
Context {A : Type} (key : A → Z).

Lemma insert_by_perm x l : insert_by key x l ≡ₚ x :: l.
Proof.
  induction l as [|y l IH]; simpl; [done|].
  destruct (key y <? key x); [|done].
  rewrite IH. apply Permutation_swap.
Qed.

Lemma sorted_perm l : sorted key l ≡ₚ l.
Proof.
  induction l as [|x l IH]; simpl; [done|].
  unfold sorted in *. simpl. rewrite insert_by_perm. by f_equiv.
Qed.

Lemma elem_of_sorted x l : x ∈ sorted key l ↔ x ∈ l.
Proof. by rewrite sorted_perm. Qed.


Lemma insert_by_sorted x l :
  StronglySorted (key_le key) l → StronglySorted (key_le key) (insert_by key x l).
Proof.
  induction 1 as [|y l Hs IH Hall]; simpl.
  - repeat constructor.
  - destruct (Z.ltb_spec (key y) (key x)) as [Hlt|Hge].
    + constructor; [done|].
      rewrite insert_by_perm. constructor; [unfold key_le; lia | done].
    + constructor; [by constructor|].
      constructor; [done|].
      eapply Forall_impl; [exact Hall|]. unfold key_le. intros; simpl in *; lia.
Qed.

Lemma sorted_sorted l : StronglySorted (key_le key) (sorted key l).
Proof.
  induction l as [|x l IH]; [constructor|].
  apply insert_by_sorted, IH.
Qed.

Lemma sorted_strict l :
  NoDup (key <$> l) → StronglySorted (key_lt key) (sorted key l).
Proof.
  intros Hnd.
  assert (Hnd' : NoDup (key <$> sorted key l)) by by rewrite sorted_perm.
  generalize (sorted_sorted l). generalize dependent (sorted key l).
  clear. intros l Hnd Hs. induction Hs as [|x l Hs IH Hall]; [constructor|].
  rewrite fmap_cons in Hnd. apply NoDup_cons in Hnd as [Hx Hnd].
  constructor; [by apply IH|].
  apply Forall_forall. intros y Hy.
  rewrite Forall_forall in Hall. specialize (Hall y Hy).
  unfold key_le, key_lt in *.
  assert (key y ≠ key x); [|lia].
  intros Heq. apply Hx. rewrite <- Heq. by apply list_elem_of_fmap_2.
Qed.

End SortedFacts.

(** ** Dictionaries *)

Section PyDictFacts.
Context {V : Type}.
Implicit Types (d : pydict V) (k : Z).

Lemma pydict_lookup_update k k' f d :
  pydict_lookup k (pydict_update k' f d)
  = if decide (k = k') then f <$> pydict_lookup k d else pydict_lookup k d.
Proof.
  induction d as [|[k0 v] d IH]; simpl.
  - by case_decide.
  - destruct (Z.eqb_spec k0 k') as [->|Hne]; simpl.
    + destruct (Z.eqb_spec k' k) as [->|Hne']; case_decide; try done; congruence.
    + destruct (Z.eqb_spec k0 k) as [->|Hne']; [|done].
      case_decide; [congruence|done].
Qed.

Lemma pydict_lookup_app k d d' :
  pydict_lookup k (d ++ d')
  = match pydict_lookup k d with
    | Some v => Some v
    | None => pydict_lookup k d'
    end.
Proof.
  induction d as [|[k0 v] d IH]; simpl; [done|].
  by destruct (k0 =? k).
Qed.

Lemma pydict_lookup_setitem_fresh k k' v d :
  pydict_mem k' d = false →
  pydict_lookup k (pydict_setitem k' v d)
  = if decide (k = k') then Some v else pydict_lookup k d.
Proof.
  intros Hm. unfold pydict_setitem. rewrite Hm, pydict_lookup_app. simpl.
  unfold pydict_mem in Hm.
  case_decide as Hk.
  - subst. destruct (pydict_lookup k' d); [done|]. by rewrite Z.eqb_refl.
  - destruct (pydict_lookup k d); [done|].
    destruct (Z.eqb_spec k' k); [congruence|done].
Qed.

Lemma pydict_keys_update k f d :
  pydict_keys (pydict_update k f d) = pydict_keys d.
Proof.
  unfold pydict_keys.
  induction d as [|[k0 v] d IH]; simpl; [done|].
  destruct (k0 =? k); simpl; [done|]. by rewrite IH.
Qed.

Lemma pydict_lookup_None k d : pydict_lookup k d = None ↔ k ∉ pydict_keys d.
Proof.
  induction d as [|[k0 v] d IH]; simpl.
  - split; [intros _; apply not_elem_of_nil | done].
  - rewrite not_elem_of_cons. destruct (Z.eqb_spec k0 k) as [->|Hne].
    + split; [done | intros [? _]; done].
    + rewrite IH. split; [intros; split; [congruence|done] | by intros [_ ?]].
Qed.

Lemma pydict_keys_setitem_fresh k v d :
  pydict_mem k d = false → pydict_keys (pydict_setitem k v d) = pydict_keys d ++ [k].
Proof.
  intros Hm. unfold pydict_setitem. rewrite Hm.
  unfold pydict_keys. by rewrite map_app.
Qed.

Lemma pydict_elem_of_lookup k v d :
  (k, v) ∈ d → NoDup (pydict_keys d) → pydict_lookup k d = Some v.
Proof.
  induction d as [|[k0 v0] d IH]; simpl; [by intros ?%elem_of_nil|].
  intros Hin Hnd. apply NoDup_cons in Hnd as [Hk0 Hnd].
  apply elem_of_cons in Hin as [[= -> ->]|Hin].
  - by rewrite Z.eqb_refl.
  - destruct (Z.eqb_spec k0 k) as [->|Hne]; [|by apply IH].
    exfalso. apply Hk0. change k with (fst (k, v)).
    unfold pydict_keys. by apply (list_elem_of_fmap_2 fst).
Qed.

Lemma pydict_lookup_elem_of k v d : pydict_lookup k d = Some v → (k, v) ∈ d.
Proof.
  induction d as [|[k0 v0] d IH]; simpl; [done|].
  destruct (Z.eqb_spec k0 k) as [->|Hne].
  - intros [= ->]. apply elem_of_cons; by left.
  - intros H. apply elem_of_cons; right; by apply IH.
Qed.

End PyDictFacts.

(** ** Strings and results *)

Lemma strip_nil : strip [] = [].
Proof. reflexivity. Qed.

Lemma try_500_Ok {A} prefix (m : pyres A) a :
  try_500 prefix m = Ok a ↔ m = Val a.
Proof. destruct m; simpl; split; congruence. Qed.

Lemma bind_Val {A B} (m : pyres A) (f : A → pyres B) b :
  bind m f = Val b → ∃ a, m = Val a ∧ f a = Val b.
Proof. destruct m; simpl; [eauto | done]. Qed.

(** ** The episode loops *)

Lemma available_from_Val ep av :
  available_from ep = Val av → is_Some (raw_id ep) ∧ av = availability ep.
Proof.
  unfold available_from, ep_id, availability, dict_get.
  destruct (raw_id ep) as [i|]; simpl; [|done].
  intros [= <-]. split; [by eexists | done].
Qed.

Lemma available_from_well_formed ep :
  is_Some (raw_id ep) → available_from ep = Val (availability ep).
Proof.
  intros [i Hi]. unfold available_from, ep_id, availability, dict_get.
  by rewrite Hi.
Qed.

Lemma scan_episode_Val source ep d d' :
  scan_episode source ep d = Val d' →
  ∃ n, raw_episode_number ep = Some n ∧ is_Some (raw_id ep) ∧
       d' = pydict_update n (set_source source (availability ep))
              (if pydict_mem n d then d else pydict_setitem n (fresh_record n) d).
Proof.
  unfold scan_episode, ep_episode_number.
  destruct (raw_episode_number ep) as [n|]; simpl; [|done].
  intros (av & [Hid ->]%available_from_Val & [= <-])%bind_Val.
  exists n. split; [done|]. split; [done|].
  by destruct (pydict_mem n d).
Qed.

Lemma scan_episode_well_formed source ep d :
  well_formed ep → ∃ d', scan_episode source ep d = Val d'.
Proof.
  intros [[n Hn] Hid]. unfold scan_episode, ep_episode_number.
  rewrite Hn. simpl. rewrite (available_from_well_formed _ Hid). simpl. eauto.
Qed.

Lemma keyed_nil : keyed [].
Proof. split; [constructor | done]. Qed.

Lemma scan_episode_step source ep d d' :
  scan_episode source ep d = Val d' →
  ∃ n, raw_episode_number ep = Some n ∧ is_Some (raw_id ep) ∧
       (keyed d → keyed d') ∧
       (∀ k, n ≠ k → view d' k = view d k) ∧
       view d' n = Some (<[source := availability ep]> (default ∅ (view d n))).
Proof.
  intros (n & Hn & Hid & ->)%scan_episode_Val.
  exists n. split; [done|]. split; [done|].
  unfold view, keyed. destruct (pydict_mem n d) eqn:Hm.
  - split; [|split].
    + intros [Hnd Hk]. split; [by rewrite pydict_keys_update|].
      intros k r. rewrite pydict_lookup_update. case_decide as Hkn; [|apply Hk].
      subst. destruct (pydict_lookup n d) as [r0|] eqn:Hl; [|done].
      intros [= <-]. simpl. by apply Hk.
    + intros k Hne. rewrite pydict_lookup_update. by rewrite decide_False.
    + rewrite pydict_lookup_update, decide_True by done.
      unfold pydict_mem in Hm. by destruct (pydict_lookup n d).
  - split; [|split].
    + intros [Hnd Hk]. split.
      * rewrite pydict_keys_update, pydict_keys_setitem_fresh by done.
        apply NoDup_app. split; [done|]. split; [|apply NoDup_singleton].
        intros x Hx ->%list_elem_of_singleton.
        unfold pydict_mem in Hm.
        destruct (pydict_lookup n d) eqn:Hl; [done|].
        by apply pydict_lookup_None in Hl.
      * intros k r. rewrite pydict_lookup_update.
        rewrite pydict_lookup_setitem_fresh by done.
        case_decide as Hkn; [|apply Hk]. subst. by intros [= <-].
    + intros k Hne. rewrite pydict_lookup_update, decide_False by done.
      by rewrite pydict_lookup_setitem_fresh, decide_False.
    + rewrite pydict_lookup_update, decide_True by done.
      rewrite pydict_lookup_setitem_fresh, decide_True by done.
      unfold pydict_mem in Hm. by destruct (pydict_lookup n d).
Qed.

Lemma for_each_scan source items d d' :
  for_each (scan_episode source) items d = Val d' →
  Forall well_formed items ∧
  (keyed d → keyed d') ∧
  ∀ k, view d' k =
       match last_with k items with
       | Some e => Some (<[source := availability e]> (default ∅ (view d k)))
       | None => view d k
       end.
Proof.
  revert d. induction items as [|ep items IH]; intros d; simpl.
  - intros [= <-]. by split; [constructor|].
  - intros (d1 & Hstep & Hrest)%bind_Val.
    apply scan_episode_step in Hstep as (n & Hn & Hid & Hkeyed & Hother & Hsame).
    apply IH in Hrest as (Hwf & Hkeyed' & Hview).
    split; [constructor; [split; [by eexists | done] | done]|].
    split; [auto|].
    intros k. rewrite Hview. destruct (last_with k items) as [e|].
    + destruct (decide (n = k)) as [->|Hne].
      * rewrite Hsame. simpl. by rewrite insert_insert_eq.
      * by rewrite Hother.
    + rewrite Hn. case_bool_decide as Hk.
      * injection Hk as ->. by rewrite Hsame.
      * rewrite Hother; [done|]. congruence.
Qed.

Lemma for_each_scan_well_formed source items d :
  Forall well_formed items → ∃ d', for_each (scan_episode source) items d = Val d'.
Proof.
  intros Hwf. revert d. induction Hwf as [|ep items Hep _ IH]; intros d; simpl.
  - eauto.
  - destruct (scan_episode_well_formed source ep d Hep) as [d1 ->]. simpl. apply IH.
Qed.

Lemma AnimeWorld_ne_AnimeSaturn : AnimeWorld ≠ AnimeSaturn.
Proof. discriminate. Qed.

Lemma fill_missing_number r : episode_number (fill_missing r) = episode_number r.
Proof.
  unfold fill_missing. simpl.
  destruct (sources r !! AnimeWorld); simpl;
    match goal with |- context [?m !! AnimeSaturn] => destruct (m !! AnimeSaturn) end;
    done.
Qed.

Lemma fill_missing_sources r :
  sources (fill_missing r)
  = <[AnimeWorld := default unavailable (sources r !! AnimeWorld)]>
      (<[AnimeSaturn := default unavailable (sources r !! AnimeSaturn)]>
         (sources r)).
Proof.
  pose proof AnimeWorld_ne_AnimeSaturn as Hne.
  unfold fill_missing. cbn [foldl].
  destruct (sources r !! AnimeWorld) as [a|] eqn:Ha; cbn [sources default].
  - destruct (sources r !! AnimeSaturn) as [s|] eqn:Hs; cbn [sources default].
    + by rewrite !insert_id by (by rewrite ?lookup_insert_ne).
    + by rewrite (insert_id _ AnimeWorld) by (by rewrite lookup_insert_ne).
  - rewrite lookup_insert_ne by done.
    destruct (sources r !! AnimeSaturn) as [s|] eqn:Hs; cbn [sources default].
    + by rewrite (insert_id _ AnimeSaturn).
    + by rewrite insert_insert_ne.
Qed.

Lemma last_with_Some n items e :
  last_with n items = Some e → e ∈ items ∧ raw_episode_number e = Some n.
Proof.
  induction items as [|ep items IH]; simpl; [done|].
  destruct (last_with n items) as [e'|].
  - intros [= ->]. destruct IH as [? ?]; [done|]. split; [by apply elem_of_cons; right | done].
  - case_bool_decide; [|done]. intros [= ->]. split; [apply elem_of_cons; by left | done].
Qed.

Lemma last_with_is_Some n items :
  is_Some (last_with n items) ↔ ∃ e, e ∈ items ∧ raw_episode_number e = Some n.
Proof.
  split.
  - intros [e He]. exists e. by apply last_with_Some.
  - intros (e & Hin & Hn). induction items as [|ep items IH]; simpl.
    + by apply elem_of_nil in Hin.
    + apply elem_of_cons in Hin as [<-|Hin].
      * destruct (last_with n items); [by eexists|].
        rewrite bool_decide_true by done. by eexists.
      * destruct (IH Hin) as [e' ->]. by eexists.
Qed.

(** The last item numbered [n], described by its position. *)
Lemma last_with_app n l1 e l2 :
  raw_episode_number e = Some n →
  (∀ e', e' ∈ l2 → raw_episode_number e' ≠ Some n) →
  last_with n (l1 ++ e :: l2) = Some e.
Proof.
  intros Hn Hl2.
  assert (Hnone : last_with n l2 = None).
  { destruct (last_with n l2) as [e'|] eqn:He'; [|done].
    apply last_with_Some in He' as [Hin He']. by destruct (Hl2 e' Hin). }
  induction l1 as [|x l1 IH]; simpl.
  - by rewrite Hnone, bool_decide_true.
  - by rewrite IH.
Qed.

Lemma merge_episodes_gathered AW AS ra rs :
  merge_episodes AW AS (gathered AW AS ra rs)
  = merge_lists (reported AW ra) (reported AS rs).
Proof.
  unfold merge_episodes, merge_lists, gathered, reported, usable,
    first_usable, last_usable, result_idx.
  destruct (truthy AW), (truthy AS), ra, rs; reflexivity.
Qed.

(** What the merge returns, record by record. *)
Lemma merge_lists_Val la ls out :
  merge_lists la ls = Val out →
  Forall well_formed (la ++ ls) ∧
  StronglySorted (key_lt episode_number) out ∧
  (∀ r, r ∈ out →
     sources r = <[AnimeWorld := slot la (episode_number r)]>
                   (<[AnimeSaturn := slot ls (episode_number r)]> ∅) ∧
     (is_Some (last_with (episode_number r) la) ∨
      is_Some (last_with (episode_number r) ls))) ∧
  (∀ n, is_Some (last_with n la) ∨ is_Some (last_with n ls) →
        ∃ r, r ∈ out ∧ episode_number r = n).
Proof.
  pose proof AnimeWorld_ne_AnimeSaturn as Hne.
  unfold merge_lists.
  intros (d1 & H1 & (d2 & H2 & [= <-])%bind_Val)%bind_Val.
  apply for_each_scan in H1 as (Hwf1 & Hk1 & Hv1).
  apply for_each_scan in H2 as (Hwf2 & Hk2 & Hv2).
  destruct (Hk2 (Hk1 keyed_nil)) as [Hnd Hkey].
  assert (Hview : ∀ k, view d2 k =
    match last_with k ls with
    | Some e => Some (<[AnimeSaturn := availability e]>
                        (match last_with k la with
                         | Some a => <[AnimeWorld := availability a]> ∅
                         | None => ∅
                         end))
    | None => match last_with k la with
              | Some a => Some (<[AnimeWorld := availability a]> ∅)
              | None => None
              end
    end).
  { intros k. rewrite Hv2, Hv1. unfold view. simpl.
    destruct (last_with k ls), (last_with k la); done. }
  set (filled := List.map (λ kv, (kv.1, fill_missing kv.2)) d2).
  assert (Hmem : ∀ r, r ∈ pydict_values filled ↔
     ∃ r0, pydict_lookup (episode_number r) d2 = Some r0 ∧ r = fill_missing r0).
  { intros r. unfold pydict_values, filled. rewrite map_map. simpl.
    rewrite list_elem_of_In, in_map_iff. split.
    - intros ([k r0] & <- & Hin%list_elem_of_In). simpl.
      pose proof (pydict_elem_of_lookup _ _ _ Hin Hnd) as Hl.
      exists r0. by rewrite fill_missing_number, (Hkey _ _ Hl).
    - intros (r0 & Hl & ->). exists (episode_number (fill_missing r0), r0).
      split; [done|]. by apply list_elem_of_In, pydict_lookup_elem_of. }
  split; [by apply Forall_app|]. split; [|split].
  - apply sorted_strict.
    replace (episode_number <$> pydict_values filled) with (pydict_keys d2);
      [done|].
    unfold pydict_values, pydict_keys, filled.
    rewrite map_map, <- list_fmap_compose.
    apply map_ext_in. intros [k r0] Hin%list_elem_of_In. simpl.
    rewrite fill_missing_number. symmetry. apply Hkey.
    by apply pydict_elem_of_lookup.
  - intros r (r0 & Hl & ->)%elem_of_sorted%Hmem.
    rewrite fill_missing_number in *.
    pose proof (Hkey _ _ Hl) as Hn.
    pose proof (Hview (episode_number r0)) as Hv.
    unfold view in Hv. rewrite Hl in Hv. simpl in Hv.
    rewrite fill_missing_sources. unfold slot.
    destruct (last_with (episode_number r0) ls) as [es|],
             (last_with (episode_number r0) la) as [ea|];
      try done; injection Hv as ->; (split; [|by eauto]).
    + rewrite lookup_insert_ne, !lookup_insert_eq by done. simpl. map_ext.
    + rewrite lookup_insert_eq, lookup_insert_ne, lookup_empty by done. simpl.
      map_ext.
    + rewrite lookup_insert_eq, lookup_insert_ne, lookup_empty by done. simpl.
      map_ext.
  - intros n Hsome.
    pose proof (Hview n) as Hv. unfold view in Hv.
    destruct (pydict_lookup n d2) as [r0|] eqn:Hl.
    + exists (fill_missing r0). rewrite fill_missing_number, (Hkey _ _ Hl).
      split; [|done]. apply elem_of_sorted, Hmem.
      exists r0. by rewrite fill_missing_number, (Hkey _ _ Hl).
    + exfalso. simpl in Hv.
      destruct Hsome as [[? Hs]|[? Hs]]; rewrite Hs in Hv;
        repeat case_match; done.
Qed.

Lemma merge_lists_well_formed la ls :
  Forall well_formed (la ++ ls) → ∃ out, merge_lists la ls = Val out.
Proof.
  intros [Ha Hs]%Forall_app. unfold merge_lists.
  destruct (for_each_scan_well_formed AnimeWorld la [] Ha) as [d1 ->]. simpl.
  destruct (for_each_scan_well_formed AnimeSaturn ls d1 Hs) as [d2 ->]. simpl.
  eauto.
Qed.

Lemma reported_Val supplied r items :
  truthy supplied = true → r = Val items → reported supplied r = items.
Proof. intros Hs ->. unfold reported, usable. by rewrite Hs. Qed.

Lemma usable_Exc {A} supplied e : usable (A:=A) supplied (Exc e) = None.
Proof. unfold usable. by destruct (truthy supplied). Qed.

Lemma usable_not_supplied {A} supplied (r : pyres A) :
  truthy supplied = false → usable supplied r = None.
Proof. intros Hs. unfold usable. by rewrite Hs. Qed.

(** ** The stream and season bodies *)

(** The stream handler body never raises; its result, source by source. *)
Lemma stream_body_gathered AW AS ra rs :
  stream_body AW AS (gathered AW AS ra rs)
  = Val (<[AnimeWorld := world_stream (usable AW ra)]>
           (<[AnimeSaturn := saturn_stream (usable AS rs)]> ∅)).
Proof.
  pose proof AnimeWorld_ne_AnimeSaturn as Hne.
  unfold stream_body, stream_animeworld, stream_animesaturn, gathered, usable,
    first_usable, last_usable, result_idx, StreamResult,
    world_stream, saturn_stream.
  destruct (truthy AW), (truthy AS), ra as [va|], rs as [vs|]; simpl;
    try (destruct va as [|sa|da]; simpl);
    try (destruct vs as [|ss|ds]; simpl);
    repeat match goal with
           | |- context [truthy_str ?s] => destruct (truthy_str s); simpl
           | |- context [bool_decide ?P] => destruct (bool_decide P); simpl
           end;
    f_equal; map_ext.
Qed.

Lemma season_episode_Val own other ep r :
  season_episode own other ep = Val r → season_entry own other ep r.
Proof.
  unfold season_episode, ep_episode_number, season_entry.
  destruct (raw_episode_number ep) as [n|]; simpl; [|done].
  by intros (av & [_ ->]%available_from_Val & [= <-])%bind_Val.
Qed.

Lemma map_res_season own other items recs :
  map_res (season_episode own other) items = Val recs →
  Forall2 (season_entry own other) items recs.
Proof.
  revert recs. induction items as [|ep items IH]; intros recs; simpl.
  - intros [= <-]. constructor.
  - intros (r & Hr%season_episode_Val & (rs & Hrs%IH & [= <-])%bind_Val)%bind_Val.
    by constructor.
Qed.

Lemma map_res_season_well_formed own other items :
  Forall well_formed items →
  ∃ recs, map_res (season_episode own other) items = Val recs.
Proof.
  induction 1 as [|ep items [[n Hn] Hid] _ [recs IH]]; simpl; [eauto|].
  unfold season_episode at 1, ep_episode_number. rewrite Hn. simpl.
  rewrite (available_from_well_formed _ Hid). simpl. rewrite IH. simpl. eauto.
Qed.

(** The seasons handler body, source by source. *)
Lemma seasons_body_gathered AW AS ra rs :
  seasons_body AW AS (gathered AW AS ra rs)
  = let* recs :=
      match usable AW ra with
      | Some la => map_res (season_episode AnimeWorld AnimeSaturn) la
      | None => Val []
      end in
    let* m :=
      match usable AS rs with
      | Some ls =>
          let* recs' := map_res (season_episode AnimeSaturn AnimeWorld) ls in
          Val (<[str "S1" := recs']> ∅)
      | None => Val ∅
      end in
    Val (<[AnimeWorld := SeasonList recs]> (<[AnimeSaturn := SeasonDict m]> ∅)).
Proof.
  pose proof AnimeWorld_ne_AnimeSaturn as Hne.
  unfold seasons_body, gathered, usable, first_usable, last_usable,
    result_idx, season_list, SeasonResult.
  destruct (truthy AW), (truthy AS), ra as [la|], rs as [ls|]; simpl;
    repeat match goal with
           | |- context [map_res ?f ?l] => destruct (map_res f l); simpl
           end;
    try done; f_equal; map_ext.
Qed.

(** ** The handlers *)

Section Handlers.
Context {RawSearch SearchResult : Type}.
Variables world saturn : Scraper RawSearch.
Variable detect_duplicates :
  list RawSearch → list RawSearch → pyres (list SearchResult).

Lemma gather_episode_tasks AW AS :
  gather (episode_tasks world saturn AW AS)
  = gathered AW AS (scraper_get_episodes world (the_str AW))
      (scraper_get_episodes saturn (the_str AS)).
Proof. unfold episode_tasks, gathered. by destruct (truthy AW), (truthy AS). Qed.

Lemma gather_stream_tasks AW AS :
  gather (stream_tasks world saturn AW AS)
  = gathered AW AS (scraper_get_stream_url world (the_str AW))
      (scraper_get_stream_url saturn (the_str AS)).
Proof. unfold stream_tasks, gathered. by destruct (truthy AW), (truthy AS). Qed.

Lemma get_episodes_Ok AW AS out :
  (get_episodes world saturn AW AS).2 = Ok out →
  merge_lists (reported AW (scraper_get_episodes world (the_str AW)))
              (reported AS (scraper_get_episodes saturn (the_str AS)))
  = Val out.
Proof.
  unfold get_episodes.
  destruct (negb (truthy AW) && negb (truthy AS)); simpl; [done|].
  by rewrite try_500_Ok, gather_episode_tasks, merge_episodes_gathered.
Qed.

Lemma get_episodes_supplied AW AS :
  truthy AW || truthy AS = true →
  get_episodes world saturn AW AS
  = (issued (episode_tasks world saturn AW AS),
     try_500 (str "Failed to get episodes: ")
       (merge_lists (reported AW (scraper_get_episodes world (the_str AW)))
                    (reported AS (scraper_get_episodes saturn (the_str AS))))).
Proof.
  intros H. unfold get_episodes.
  rewrite gather_episode_tasks, merge_episodes_gathered.
  by destruct (truthy AW), (truthy AS).
Qed.


Lemma get_seasons_supplied AW AS :
  truthy AW || truthy AS = true →
  get_seasons world saturn AW AS
  = (issued (episode_tasks world saturn AW AS),
     try_500 (str "Failed to get seasons: ")
       (seasons_body AW AS
          (gathered AW AS (scraper_get_episodes world (the_str AW))
             (scraper_get_episodes saturn (the_str AS))))).
Proof.
  intros H. unfold get_seasons. rewrite gather_episode_tasks.
  by destruct (truthy AW), (truthy AS).
Qed.

Lemma get_seasons_Ok AW AS body :
  (get_seasons world saturn AW AS).2 = Ok body →
  seasons_body AW AS
    (gathered AW AS (scraper_get_episodes world (the_str AW))
       (scraper_get_episodes saturn (the_str AS))) = Val body.
Proof.
  unfold get_seasons.
  destruct (negb (truthy AW) && negb (truthy AS)); simpl; [done|].
  by rewrite try_500_Ok, gather_episode_tasks.
Qed.

Lemma get_stream_urls_supplied AW AS :
  truthy AW || truthy AS = true →
  get_stream_urls world saturn AW AS
  = (issued (stream_tasks world saturn AW AS),
     Ok (<[AnimeWorld :=
             world_stream (usable AW (scraper_get_stream_url world (the_str AW)))]>
           (<[AnimeSaturn :=
                saturn_stream
                  (usable AS (scraper_get_stream_url saturn (the_str AS)))]> ∅))).
Proof.
  intros H. unfold get_stream_urls.
  rewrite gather_stream_tasks, stream_body_gathered.
  by destruct (truthy AW), (truthy AS).
Qed.

Lemma get_stream_urls_Ok AW AS body :
  (get_stream_urls world saturn AW AS).2 = Ok body →
  body = <[AnimeWorld :=
             world_stream (usable AW (scraper_get_stream_url world (the_str AW)))]>
           (<[AnimeSaturn :=
                saturn_stream
                  (usable AS (scraper_get_stream_url saturn (the_str AS)))]> ∅).
Proof.
  unfold get_stream_urls.
  destruct (negb (truthy AW) && negb (truthy AS)); simpl; [done|].
  rewrite gather_stream_tasks, stream_body_gathered. simpl. congruence.
Qed.

(** The episodes handler answers a request that names a source exactly
    when every item it reads carries the keys ["episode_number"] and
    ["id"]; otherwise the except clause turns the [KeyError] into a 500. *)
Lemma get_episodes_answers AW AS :
  truthy AW || truthy AS = true →
  (∃ out, (get_episodes world saturn AW AS).2 = Ok out)
  ↔ Forall well_formed
      (reported AW (scraper_get_episodes world (the_str AW))
       ++ reported AS (scraper_get_episodes saturn (the_str AS))).
Proof.
  intros Hsup. rewrite get_episodes_supplied by done. simpl. split.
  - intros [out Hout%try_500_Ok]. by apply merge_lists_Val in Hout as [? _].
  - intros [out Hout]%merge_lists_well_formed. exists out. by rewrite Hout.
Qed.

End Handlers.

(** * The claims *)

Section Claims.
Context {RawSearch SearchResult : Type}.
Variables world saturn : Scraper RawSearch.
Variable detect_duplicates :
  list RawSearch → list RawSearch → pyres (list SearchResult).

(** C6.  A query whose stripped length is below 2 is answered with the
    client error (status 400) and no provider operation is issued; a query
    whose stripped length is at least 2 is passed to both providers and is
    never answered with status 400. *)
Theorem search_anime_validation (q : pystr) :
  (len (strip q) < 2 →
     search_anime world saturn detect_duplicates q
     = ([], HTTPException 400 (str "Query must be at least 2 characters long")))
  ∧
  (2 ≤ len (strip q) →
     (search_anime world saturn detect_duplicates q).1
     = [Call AnimeWorld m_search q; Call AnimeSaturn m_search q] ∧
     ∀ detail,
       (search_anime world saturn detect_duplicates q).2
       ≠ HTTPException 400 detail).
Proof.
  unfold search_anime. split; intros Hlen.
  - apply Z.ltb_lt in Hlen. rewrite Hlen. by rewrite orb_true_r.
  - assert (Hq : truthy_str q = true).
    { destruct q; [|done]. rewrite strip_nil in Hlen. unfold len in Hlen.
      simpl in Hlen. lia. }
    apply Z.ltb_ge in Hlen. rewrite Hq, Hlen. simpl. split; [done|].
    intros detail. destruct (search_results _ _); simpl; congruence.
Qed.

(** C3.  The records returned by the episodes handler are in strictly
    ascending order of episode number; in particular no two of them share
    an episode number. *)
Theorem get_episodes_sorted_unique (AW AS : option pystr)
    (out : list EpisodeResult) :
  (get_episodes world saturn AW AS).2 = Ok out →
  StronglySorted Z.le (episode_number <$> out) ∧
  NoDup (episode_number <$> out) ∧
  ∀ i j ri rj, out !! i = Some ri → out !! j = Some rj → (i < j)%nat →
               episode_number ri < episode_number rj.
Proof.
  intros (_ & Hs & _)%get_episodes_Ok%merge_lists_Val.
  clear -Hs. induction Hs as [|r out Hs (IHle & IHnd & IHidx) Hall].
  - split; [constructor|]. split; [constructor|]. by intros [|i] j.
  - rewrite Forall_forall in Hall. unfold key_lt in Hall.
    split; [|split].
    + rewrite fmap_cons. constructor; [done|].
      apply Forall_forall. intros n (r' & -> & Hr')%list_elem_of_fmap.
      specialize (Hall _ Hr'). lia.
    + rewrite fmap_cons. apply NoDup_cons. split; [|done].
      intros (r' & Heq & Hr')%list_elem_of_fmap.
      specialize (Hall _ Hr'). lia.
    + intros i [|j] ri rj Hi Hj Hlt; [lia|].
      destruct i as [|i]; simpl in *.
      * injection Hi as <-. apply Hall. by eapply list_elem_of_lookup_2.
      * eapply IHidx; [done..|lia].
Qed.

(** C4.  Every record returned by the episodes handler has an entry for
    AnimeWorld and an entry for AnimeSaturn in its sources mapping; the
    entry of a source that was not named in the request is the unavailable
    one. *)
Theorem get_episodes_sources_complete (AW AS : option pystr)
    (out : list EpisodeResult) (r : EpisodeResult) :
  (get_episodes world saturn AW AS).2 = Ok out →
  r ∈ out →
  is_Some (sources r !! AnimeWorld) ∧
  is_Some (sources r !! AnimeSaturn) ∧
  (truthy AW = false → sources r !! AnimeWorld = Some unavailable) ∧
  (truthy AS = false → sources r !! AnimeSaturn = Some unavailable).
Proof.
  pose proof AnimeWorld_ne_AnimeSaturn as Hne.
  intros (_ & _ & Hrec & _)%get_episodes_Ok%merge_lists_Val Hr.
  destruct (Hrec r Hr) as [-> _].
  rewrite lookup_insert_eq, lookup_insert_ne, lookup_insert_eq by done.
  split; [by eexists|]. split; [by eexists|].
  unfold reported, usable. by split; intros ->.
Qed.

(** C2.  AnimeWorld reports episodes 1 ("a1") and 2 ("a2"), AnimeSaturn
    reports episode 1 ("b1"): the handler returns two records, episode 1
    with both sources available and episode 2 with AnimeWorld available and
    AnimeSaturn unavailable with no id. *)
Theorem get_episodes_example (aw as_ : pystr) :
  truthy_str aw = true → truthy_str as_ = true →
  scraper_get_episodes world aw = Val [item 1 "a1"; item 2 "a2"] →
  scraper_get_episodes saturn as_ = Val [item 1 "b1"] →
  get_episodes world saturn (Some aw) (Some as_)
  = ([Call AnimeWorld m_get_episodes aw; Call AnimeSaturn m_get_episodes as_],
     Ok [ {| episode_number := 1;
             sources :=
               <[AnimeWorld := {| available := true; url := None;
                                  id_ := Some (str "a1") |}]>
                 (<[AnimeSaturn := {| available := true; url := None;
                                      id_ := Some (str "b1") |}]> ∅) |};
          {| episode_number := 2;
             sources :=
               <[AnimeWorld := {| available := true; url := None;
                                  id_ := Some (str "a2") |}]>
                 (<[AnimeSaturn := {| available := false; url := None;
                                      id_ := None |}]> ∅) |} ]).
Proof.
  intros Haw Has Hworld Hsaturn.
  rewrite get_episodes_supplied by (simpl; by rewrite Haw).
  unfold episode_tasks, reported, usable. simpl.
  rewrite Haw, Has, Hworld, Hsaturn.
  vm_compute. reflexivity.
Qed.

(** C9, as the code has it.  In an answered seasons request, AnimeSaturn,
    when named and successful, contributes the single season "S1" holding
    all its episodes in order; AnimeWorld, when named and successful,
    contributes its episodes in order as a plain list under its key, with
    no season label.  Each record marks the other source unavailable with
    no url and no id. *)
Theorem get_seasons_grouping (AW AS : option pystr)
    (body : gmap pystr SeasonValue) :
  (get_seasons world saturn AW AS).2 = Ok body →
  (∀ items,
     truthy AS = true →
     scraper_get_episodes saturn (the_str AS) = Val items →
     ∃ recs, body !! AnimeSaturn = Some (SeasonDict (<[str "S1" := recs]> ∅)) ∧
             Forall2 (season_entry AnimeSaturn AnimeWorld) items recs)
  ∧
  (∀ items,
     truthy AW = true →
     scraper_get_episodes world (the_str AW) = Val items →
     ∃ recs, body !! AnimeWorld = Some (SeasonList recs) ∧
             Forall2 (season_entry AnimeWorld AnimeSaturn) items recs).
Proof.
  pose proof AnimeWorld_ne_AnimeSaturn as Hne.
  intros Hbody%get_seasons_Ok. rewrite seasons_body_gathered in Hbody.
  apply bind_Val in Hbody as (recs & Hrecs & (m & Hm & [= <-])%bind_Val).
  split; intros items Hsup Hval; unfold usable in Hrecs, Hm;
    rewrite Hsup, Hval in *.
  - apply bind_Val in Hm as (recs' & Hrecs'%map_res_season & [= <-]).
    exists recs'. by rewrite lookup_insert_ne, lookup_insert_eq.
  - apply map_res_season in Hrecs. exists recs. by rewrite lookup_insert_eq.
Qed.

(** C5.  Only the AnimeSaturn identifier is supplied and the AnimeSaturn
    provider call fails: the stream handler answers without an exception,
    with both sources unavailable and no stream URL. *)
Theorem get_stream_urls_saturn_fails (AW AS : option pystr) (exc : pyexc) :
  truthy AW = false → truthy AS = true →
  scraper_get_stream_url saturn (the_str AS) = Exc exc →
  get_stream_urls world saturn AW AS
  = ([Call AnimeSaturn m_get_stream_url (the_str AS)],
     Ok (<[AnimeWorld := {| stream_available := false; stream_url := None;
                            embed := None |}]>
           (<[AnimeSaturn := {| stream_available := false; stream_url := None;
                                embed := None |}]> ∅))).
Proof.
  intros Haw Has Hexc.
  rewrite get_stream_urls_supplied by (rewrite Has; apply orb_true_r).
  unfold stream_tasks, usable. by rewrite Haw, Has, Hexc.
Qed.

(** C10.  The AnimeWorld provider returns a non-empty dictionary without a
    "stream_url" entry: the stream handler reports AnimeWorld as available
    with no stream URL and no embed. *)
Theorem get_stream_urls_available_without_url (AW AS : option pystr)
    (d : gmap pystr (option pystr)) :
  truthy AW = true →
  scraper_get_stream_url world (the_str AW) = Val (PyDict d) →
  d ≠ ∅ →
  d !! str "stream_url" = None →
  ∃ body, (get_stream_urls world saturn AW AS).2 = Ok body ∧
          body !! AnimeWorld
          = Some {| stream_available := true; stream_url := None;
                    embed := None |}.
Proof.
  intros Haw Hval Hne Hurl.
  rewrite get_stream_urls_supplied by by rewrite Haw.
  eexists. split; [done|]. rewrite lookup_insert_eq.
  unfold usable, world_stream. rewrite Haw, Hval. simpl.
  rewrite bool_decide_false by done. simpl.
  unfold stream_get. by rewrite Hurl.
Qed.

(** C8, as the code has it.  In an answered stream request:
    - AnimeWorld, when its result carries a URL, always gets the iframe
      markup built from that URL, whatever embed markup the result carries;
    - AnimeSaturn, when its result carries a URL and no embed markup, gets
      the video markup built from the proxy address of that URL;
    - AnimeSaturn, when its result carries embed markup, gets that markup. *)
Theorem get_stream_urls_embed (AW AS : option pystr)
    (body : gmap pystr StreamSource) :
  (get_stream_urls world saturn AW AS).2 = Ok body →
  (∀ v u,
     truthy AW = true →
     scraper_get_stream_url world (the_str AW) = Val v →
     url_of v = Val (Some u) → u ≠ [] →
     body !! AnimeWorld
     = Some {| stream_available := true; stream_url := Some u;
               embed := Some (iframe_embed u) |})
  ∧
  (∀ v u,
     truthy AS = true →
     scraper_get_stream_url saturn (the_str AS) = Val v →
     url_of v = Val (Some u) → u ≠ [] →
     truthy (embed_of v) = false →
     body !! AnimeSaturn
     = Some {| stream_available := true; stream_url := Some u;
               embed := Some (video_embed u) |})
  ∧
  (∀ v markup,
     truthy AS = true →
     scraper_get_stream_url saturn (the_str AS) = Val v →
     embed_of v = Some markup → markup ≠ [] →
     embed <$> body !! AnimeSaturn = Some (Some markup)).
Proof.
  pose proof AnimeWorld_ne_AnimeSaturn as Hne.
  intros ->%get_stream_urls_Ok. split; [|split].
  - intros v u Hsup Hval Hurl Hu. rewrite lookup_insert_eq.
    unfold usable, world_stream. rewrite Hsup, Hval.
    destruct v as [|s|d]; simpl in *; [done| |].
    + injection Hurl as ->. by destruct u.
    + injection Hurl as Hurl. rewrite Hurl.
      rewrite bool_decide_false.
      * by destruct u.
      * intros ->. unfold stream_get in Hurl. by rewrite lookup_empty in Hurl.
  - intros v u Hsup Hval Hurl Hu Hembed.
    rewrite lookup_insert_ne, lookup_insert_eq by done.
    unfold usable, saturn_stream. rewrite Hsup, Hval, Hembed.
    destruct v as [|s|d]; simpl in *; [done| |].
    + injection Hurl as ->. by destruct u.
    + injection Hurl as Hurl. rewrite Hurl.
      rewrite bool_decide_false.
      * by destruct u.
      * intros ->. unfold stream_get in Hurl. by rewrite lookup_empty in Hurl.
  - intros v markup Hsup Hval Hembed Hm.
    rewrite lookup_insert_ne, lookup_insert_eq by done.
    unfold usable, saturn_stream. rewrite Hsup, Hval, Hembed.
    destruct v as [|s|d]; simpl in *; [done..|].
    rewrite bool_decide_false.
    + by destruct markup.
    + intros ->. unfold stream_get in Hembed. by rewrite lookup_empty in Hembed.
Qed.

End Claims.

(** * Instances on the sample providers *)

(** C6 at the queries [" a "] (one character once stripped) and ["ab"]. *)
Lemma search_anime_validation_witness :
  search_anime (episodes_scraper []) down concat_titles (str " a ")
  = ([], HTTPException 400 (str "Query must be at least 2 characters long"))
  ∧ (search_anime (episodes_scraper []) down concat_titles (str "ab")).1
    = [Call AnimeWorld m_search (str "ab"); Call AnimeSaturn m_search (str "ab")].
Proof.
  split.
  - apply (proj1 (search_anime_validation
                    (episodes_scraper []) down concat_titles (str " a "))).
    vm_compute. reflexivity.
  - apply (proj2 (search_anime_validation
                    (episodes_scraper []) down concat_titles (str "ab"))).
    vm_compute. discriminate.
Defined.

(** C3 on two unordered, overlapping sequences. *)
Lemma get_episodes_sorted_unique_witness :
  let world := episodes_scraper [item 3 "a3"; item 1 "a1"] in
  let saturn := episodes_scraper [item 2 "b2"; item 1 "b1"] in
  let out := [ record 1 (by_id "a1") (by_id "b1");
               record 2 unavailable (by_id "b2");
               record 3 (by_id "a3") unavailable ] in
  (get_episodes world saturn some_aw some_as).2 = Ok out ∧
  StronglySorted Z.le (episode_number <$> out) ∧
  NoDup (episode_number <$> out).
Proof.
  intros world saturn out.
  assert (H : (get_episodes world saturn some_aw some_as).2 = Ok out)
    by (vm_compute; reflexivity).
  split; [exact H|].
  destruct (get_episodes_sorted_unique world saturn some_aw some_as out H)
    as (Hsorted & Hnodup & _).
  split; assumption.
Defined.

(** C4 on a request that names AnimeSaturn only. *)
Lemma get_episodes_sources_complete_witness :
  let saturn := episodes_scraper [item 1 "b1"] in
  let r := record 1 unavailable (by_id "b1") in
  (get_episodes down saturn None some_as).2 = Ok [r] ∧
  is_Some (sources r !! AnimeWorld) ∧
  is_Some (sources r !! AnimeSaturn) ∧
  sources r !! AnimeWorld = Some unavailable.
Proof.
  intros saturn r.
  assert (H : (get_episodes down saturn None some_as).2 = Ok [r])
    by (vm_compute; reflexivity).
  split; [exact H|].
  destruct (get_episodes_sources_complete down saturn None some_as [r] r H)
    as (Hw & Hs & Hnone & _).
  - apply list_elem_of_here.
  - split; [exact Hw|]. split; [exact Hs|]. apply Hnone. reflexivity.
Defined.

(** C2 on fixed providers. *)
Lemma get_episodes_example_witness :
  get_episodes (episodes_scraper [item 1 "a1"; item 2 "a2"])
               (episodes_scraper [item 1 "b1"]) some_aw some_as
  = ([Call AnimeWorld m_get_episodes (str "naruto.aw");
      Call AnimeSaturn m_get_episodes (str "naruto-as")],
     Ok [ record 1 (by_id "a1") (by_id "b1");
          record 2 (by_id "a2") unavailable ]).
Proof.
  apply (get_episodes_example
           (episodes_scraper [item 1 "a1"; item 2 "a2"])
           (episodes_scraper [item 1 "b1"])
           (str "naruto.aw") (str "naruto-as")); reflexivity.
Defined.

(** C9 on a request naming both sources. *)
Lemma get_seasons_grouping_witness :
  let world_items := [item 1 "a1"; item 2 "a2"] in
  let saturn_items := [item 1 "b1"] in
  let body : gmap pystr SeasonValue :=
    <[AnimeWorld := SeasonList [ record 1 (by_id "a1") unavailable;
                                  record 2 (by_id "a2") unavailable ]]>
      (<[AnimeSaturn :=
           SeasonDict (<[str "S1" := [record 1 unavailable (by_id "b1")]]> ∅)]>
         ∅) in
  (get_seasons (episodes_scraper world_items) (episodes_scraper saturn_items)
     some_aw some_as).2 = Ok body ∧
  (∃ recs, body !! AnimeSaturn = Some (SeasonDict (<[str "S1" := recs]> ∅)) ∧
           Forall2 (season_entry AnimeSaturn AnimeWorld) saturn_items recs) ∧
  (∃ recs, body !! AnimeWorld = Some (SeasonList recs) ∧
           Forall2 (season_entry AnimeWorld AnimeSaturn) world_items recs).
Proof.
  intros world_items saturn_items body.
  assert (H : (get_seasons (episodes_scraper world_items)
                 (episodes_scraper saturn_items) some_aw some_as).2 = Ok body)
    by (vm_compute; reflexivity).
  split; [exact H|].
  destruct (get_seasons_grouping _ _ some_aw some_as body H) as [Hs Hw].
  split; [apply Hs | apply Hw]; reflexivity.
Defined.

(** C9 as stated fails for AnimeWorld: what it contributes is a plain
    list, not a mapping from one season label to its episodes. *)
Lemma get_seasons_world_has_no_season_label :
  ∃ body,
    (get_seasons (episodes_scraper [item 1 "a1"]) down some_aw None).2 = Ok body ∧
    body !! AnimeWorld = Some (SeasonList [record 1 (by_id "a1") unavailable]) ∧
    ¬ ∃ label recs,
        body !! AnimeWorld = Some (SeasonDict (<[label := recs]> ∅)).
Proof.
  eexists. split; [vm_compute; reflexivity|].
  split; [vm_compute; reflexivity|].
  intros (label & recs & H). vm_compute in H. discriminate H.
Qed.

(** C5 with AnimeSaturn down. *)
Lemma get_stream_urls_saturn_fails_witness :
  get_stream_urls (stream_scraper PyNone) down None some_as
  = ([Call AnimeSaturn m_get_stream_url (str "naruto-as")],
     Ok (<[AnimeWorld := no_stream]> (<[AnimeSaturn := no_stream]> ∅))).
Proof.
  apply (get_stream_urls_saturn_fails (stream_scraper PyNone) down None some_as
           (Exception (str "timeout"))); reflexivity.
Defined.

(** C10 on a dictionary that only has a provider label. *)
Lemma get_stream_urls_available_without_url_witness :
  ∃ body,
    (get_stream_urls (stream_scraper stream_without_url) down some_aw None).2
    = Ok body ∧
    body !! AnimeWorld
    = Some {| stream_available := true; stream_url := None; embed := None |}.
Proof.
  apply (get_stream_urls_available_without_url
           (stream_scraper stream_without_url) down some_aw None
           (<[str "provider" := Some (str "AnimeWorld")]> ∅)).
  - reflexivity.
  - reflexivity.
  - intros H. apply (f_equal (λ m, m !! str "provider")) in H.
    vm_compute in H. discriminate H.
  - vm_compute. reflexivity.
Defined.

(** C8: AnimeWorld returns a bare URL, AnimeSaturn a dictionary with its
    own embed markup. *)
Lemma get_stream_urls_embed_witness :
  ∃ body,
    (get_stream_urls (stream_scraper (PyStr (str "https://aw/ep1")))
       (stream_scraper stream_with_embed) some_aw some_as).2 = Ok body ∧
    body !! AnimeWorld
    = Some {| stream_available := true;
              stream_url := Some (str "https://aw/ep1");
              embed := Some (iframe_embed (str "https://aw/ep1")) |} ∧
    embed <$> body !! AnimeSaturn = Some (Some (str "<video src=x>")).
Proof.
  eexists. split; [vm_compute; reflexivity|].
  destruct (get_stream_urls_embed
              (stream_scraper (PyStr (str "https://aw/ep1")))
              (stream_scraper stream_with_embed) some_aw some_as _ eq_refl)
    as (Hw & _ & Hs).
  split.
  - apply (Hw (PyStr (str "https://aw/ep1")) (str "https://aw/ep1"));
      [reflexivity..|discriminate].
  - apply (Hs stream_with_embed (str "<video src=x>"));
      [reflexivity | reflexivity | vm_compute; reflexivity | discriminate].
Defined.

(** C8 as stated fails for AnimeWorld: embed markup carried by its result
    is not used, the iframe built from the URL is returned instead. *)
Lemma get_stream_urls_world_ignores_embed :
  embed_of stream_with_embed = Some (str "<video src=x>") ∧
  ∃ body,
    (get_stream_urls (stream_scraper stream_with_embed) down some_aw None).2
    = Ok body ∧
    embed <$> body !! AnimeWorld
    = Some (Some (iframe_embed (str "https://cdn/ep1.mp4"))) ∧
    embed <$> body !! AnimeWorld ≠ Some (Some (str "<video src=x>")).
Proof.
  split; [vm_compute; reflexivity|].
  eexists. split; [vm_compute; reflexivity|].
  split; [vm_compute; reflexivity|].
  vm_compute. discriminate.
Qed.

(** An item without ["id"] makes the episodes handler answer with a 500
    that quotes the missing key. *)
Example get_episodes_missing_id :
  (get_episodes (episodes_scraper [item_no_id 1]) down some_aw None).2
  = HTTPException 500 (str "Failed to get episodes: 'id'").
Proof. vm_compute. reflexivity. Qed.

(** * Further properties of the handlers *)

Section MoreFacts.

Lemma lstrip_blank ws rest : blank ws → lstrip (ws ++ rest) = lstrip rest.
Proof.
  induction 1 as [|c ws Hc _ IH]; simpl; [done|]. by rewrite Hc.
Qed.

Lemma lstrip_solid c rest : isspace c = false → lstrip (c :: rest) = c :: rest.
Proof. intros Hc. simpl. by rewrite Hc. Qed.

Lemma blank_rev ws : blank ws → blank (rev ws).
Proof. unfold blank. intros H. apply Forall_forall. intros c Hc.
  rewrite Forall_forall in H. apply H. apply list_elem_of_In.
  apply in_rev. by apply list_elem_of_In. Qed.

Lemma rstrip_blank rest ws : blank ws → rstrip (rest ++ ws) = rstrip rest.
Proof.
  intros H. unfold rstrip. rewrite rev_app_distr.
  by rewrite lstrip_blank by by apply blank_rev.
Qed.

Lemma rstrip_solid rest c : isspace c = false → rstrip (rest ++ [c]) = rest ++ [c].
Proof.
  intros Hc. unfold rstrip. rewrite rev_app_distr. simpl.
  rewrite Hc. simpl. by rewrite rev_involutive.
Qed.

Lemma strip_blank ws : blank ws → strip ws = [].
Proof.
  intros H. unfold strip, rstrip.
  assert (Hl : ∀ l, blank l → lstrip l = []).
  { induction 1 as [|c l Hc _ IH]; simpl; [done|]. by rewrite Hc. }
  rewrite (Hl (rev ws)) by by apply blank_rev. done.
Qed.

Lemma strip_one pre c post :
  blank pre → blank post → isspace c = false →
  strip (pre ++ c :: post) = [c].
Proof.
  intros Hpre Hpost Hc. unfold strip.
  replace (pre ++ c :: post) with ((pre ++ [c]) ++ post)
    by by rewrite <- app_assoc.
  rewrite rstrip_blank, rstrip_solid by done.
  by rewrite lstrip_blank, lstrip_solid.
Qed.

Lemma strip_two pre c mid c' post :
  blank pre → blank post → isspace c = false → isspace c' = false →
  strip (pre ++ c :: mid ++ c' :: post) = c :: mid ++ [c'].
Proof.
  intros Hpre Hpost Hc Hc'. unfold strip.
  replace (pre ++ c :: mid ++ c' :: post)
    with ((pre ++ c :: mid ++ [c']) ++ post)
    by (rewrite <- !app_assoc; simpl; by rewrite <- app_assoc).
  rewrite rstrip_blank by done.
  replace (pre ++ c :: mid ++ [c']) with ((pre ++ c :: mid) ++ [c'])
    by by rewrite <- app_assoc.
  rewrite rstrip_solid by done. rewrite <- app_assoc. simpl.
  by rewrite lstrip_blank, lstrip_solid.
Qed.

Lemma first_missing_None items :
  first_missing items = None ↔ Forall well_formed items.
Proof.
  induction items as [|ep items IH]; simpl; [by split; [constructor|]|].
  rewrite Forall_cons. unfold well_formed at 1.
  destruct (raw_episode_number ep) as [n|], (raw_id ep) as [i|]; simpl.
  - rewrite IH. split; [by intros ?; repeat split; eauto | by intros [_ ?]].
  - split; [done | by intros [[_ [? ?]] _]].
  - split; [done | by intros [[[? ?] _] _]].
  - split; [done | by intros [[[? ?] _] _]].
Qed.

Lemma first_missing_app la ls :
  first_missing (la ++ ls)
  = match first_missing la with
    | Some key => Some key
    | None => first_missing ls
    end.
Proof.
  induction la as [|ep la IH]; simpl; [done|].
  by destruct (raw_episode_number ep), (raw_id ep).
Qed.

Lemma for_each_scan_missing source items d key :
  first_missing items = Some key →
  for_each (scan_episode source) items d = Exc (KeyError key).
Proof.
  revert d. induction items as [|ep items IH]; intros d; simpl; [done|].
  destruct (raw_episode_number ep) as [n|] eqn:Hn,
           (raw_id ep) as [i|] eqn:Hi; intros Hkey.
  - destruct (scan_episode_well_formed source ep d) as [d1 ->].
    { split; [by rewrite Hn | by rewrite Hi]. }
    simpl. by apply IH.
  - injection Hkey as <-.
    unfold scan_episode, ep_episode_number, available_from, ep_id.
    by rewrite Hn, Hi.
  - injection Hkey as <-. unfold scan_episode, ep_episode_number. by rewrite Hn.
  - injection Hkey as <-. unfold scan_episode, ep_episode_number. by rewrite Hn.
Qed.

Lemma merge_lists_missing la ls key :
  first_missing (la ++ ls) = Some key →
  merge_lists la ls = Exc (KeyError key).
Proof.
  rewrite first_missing_app. unfold merge_lists.
  destruct (first_missing la) as [k|] eqn:Hla.
  - intros [= <-]. by rewrite (for_each_scan_missing _ _ _ _ Hla).
  - intros Hls. apply first_missing_None in Hla.
    destruct (for_each_scan_well_formed AnimeWorld la [] Hla) as [d1 ->]. simpl.
    by rewrite (for_each_scan_missing _ _ _ _ Hls).
Qed.

Lemma map_res_season_missing own other items key :
  first_missing items = Some key →
  map_res (season_episode own other) items = Exc (KeyError key).
Proof.
  induction items as [|ep items IH]; simpl; [done|].
  unfold season_episode at 1, ep_episode_number, available_from, ep_id.
  destruct (raw_episode_number ep) as [n|] eqn:Hn,
           (raw_id ep) as [i|] eqn:Hi; simpl; intros Hkey.
  - by rewrite (IH Hkey).
  - by injection Hkey as <-.
  - by injection Hkey as <-.
  - by injection Hkey as <-.
Qed.

(** The seasons body in terms of the two contributed sequences. *)
Lemma seasons_body_reported AW AS ra rs :
  seasons_body AW AS (gathered AW AS ra rs)
  = let* recs := map_res (season_episode AnimeWorld AnimeSaturn)
                   (reported AW ra) in
    let* recs' := map_res (season_episode AnimeSaturn AnimeWorld)
                    (reported AS rs) in
    Val (<[AnimeWorld := SeasonList recs]>
           (<[AnimeSaturn :=
                SeasonDict (match usable AS rs with
                            | Some _ => <[str "S1" := recs']> ∅
                            | None => ∅
                            end)]> ∅)).
Proof.
  rewrite seasons_body_gathered. unfold reported.
  destruct (usable AW ra) as [la|], (usable AS rs) as [ls|]; simpl;
    repeat match goal with
           | |- context [map_res ?f ?l] => destruct (map_res f l); simpl
           end; done.
Qed.

Lemma seasons_body_well_formed AW AS ra rs :
  first_missing (reported AW ra ++ reported AS rs) = None →
  ∃ body, seasons_body AW AS (gathered AW AS ra rs) = Val body.
Proof.
  intros [Ha Hs]%first_missing_None%Forall_app. rewrite seasons_body_reported.
  destruct (map_res_season_well_formed AnimeWorld AnimeSaturn _ Ha) as [recs ->].
  destruct (map_res_season_well_formed AnimeSaturn AnimeWorld _ Hs) as [recs' ->].
  simpl. eauto.
Qed.

Lemma seasons_body_missing AW AS ra rs key :
  first_missing (reported AW ra ++ reported AS rs) = Some key →
  seasons_body AW AS (gathered AW AS ra rs) = Exc (KeyError key).
Proof.
  rewrite seasons_body_reported, first_missing_app.
  destruct (first_missing (reported AW ra)) as [k|] eqn:Hla.
  - intros [= <-]. by rewrite (map_res_season_missing _ _ _ _ Hla).
  - intros Hls. apply first_missing_None in Hla.
    destruct (map_res_season_well_formed AnimeWorld AnimeSaturn _ Hla)
      as [recs ->].
    simpl. by rewrite (map_res_season_missing _ _ _ _ Hls).
Qed.

Lemma elem_of_numbers n items :
  n ∈ numbers items ↔ is_Some (last_with n items).
Proof.
  unfold numbers. rewrite list_elem_of_omap, last_with_is_Some. done.
Qed.

Lemma length_numbers items : (length (numbers items) ≤ length items)%nat.
Proof.
  unfold numbers. induction items as [|ep items IH]; [done|].
  change (omap raw_episode_number (ep :: items))
    with (match raw_episode_number ep with
          | Some n => n :: omap raw_episode_number items
          | None => omap raw_episode_number items
          end).
  destruct (raw_episode_number ep); cbn [length]; lia.
Qed.

Section StrictlySorted.
Context {A : Type} (key : A → Z).

Lemma strictly_sorted_NoDup l :
  StronglySorted (key_lt key) l → NoDup (key <$> l).
Proof.
  induction 1 as [|x l _ IH Hall]; [constructor|].
  rewrite fmap_cons. apply NoDup_cons. split; [|done].
  intros (y & Heq & Hy)%list_elem_of_fmap.
  rewrite Forall_forall in Hall. specialize (Hall y Hy).
  unfold key_lt in Hall. lia.
Qed.

(** A strictly sorted list is determined by its elements. *)
Lemma strictly_sorted_ext l1 l2 :
  StronglySorted (key_lt key) l1 → StronglySorted (key_lt key) l2 →
  (∀ x, x ∈ l1 ↔ x ∈ l2) → l1 = l2.
Proof.
  intros H1. revert l2.
  induction H1 as [|x l1 _ IH Hall1]; intros l2 H2 Hext.
  - destruct l2 as [|y l2]; [done|].
    exfalso. eapply not_elem_of_nil, Hext, list_elem_of_here.
  - destruct H2 as [|y l2 H2 Hall2].
    { exfalso. eapply not_elem_of_nil, Hext, list_elem_of_here. }
    rewrite Forall_forall in Hall1, Hall2. unfold key_lt in Hall1, Hall2.
    assert (x = y) as <-.
    { pose proof (proj1 (Hext x) (list_elem_of_here _ _)) as Hx.
      pose proof (proj2 (Hext y) (list_elem_of_here _ _)) as Hy.
      apply elem_of_cons in Hx as [?|Hx]; [done|].
      apply elem_of_cons in Hy as [?|Hy]; [done|].
      specialize (Hall1 _ Hy). specialize (Hall2 _ Hx). lia. }
    f_equal. apply IH; [done|]. intros z. split; intros Hz.
    + pose proof (proj1 (Hext z) (list_elem_of_further _ _ _ Hz)) as Hz'.
      apply elem_of_cons in Hz' as [->|?]; [|done].
      specialize (Hall1 _ Hz). lia.
    + pose proof (proj2 (Hext z) (list_elem_of_further _ _ _ Hz)) as Hz'.
      apply elem_of_cons in Hz' as [->|?]; [|done].
      specialize (Hall2 _ Hz). lia.
Qed.

End StrictlySorted.

(** The merge depends on each sequence only through its last item per
    episode number. *)
Lemma merge_lists_last_items la ls la' ls' out out' :
  merge_lists la ls = Val out → merge_lists la' ls' = Val out' →
  (∀ n, last_with n la = last_with n la') →
  (∀ n, last_with n ls = last_with n ls') →
  out = out'.
Proof.
  intros (_ & Hs & Hrec & Hall)%merge_lists_Val
         (_ & Hs' & Hrec' & Hall')%merge_lists_Val Hla Hls.
  apply (strictly_sorted_ext episode_number); [done..|].
  assert (Hone : ∀ (la ls la' ls' : list RawEpisode)
                    (out out' : list EpisodeResult),
    (∀ r, r ∈ out →
       sources r = <[AnimeWorld := slot la (episode_number r)]>
                     (<[AnimeSaturn := slot ls (episode_number r)]> ∅) ∧
       (is_Some (last_with (episode_number r) la) ∨
        is_Some (last_with (episode_number r) ls))) →
    (∀ r, r ∈ out' →
       sources r = <[AnimeWorld := slot la' (episode_number r)]>
                     (<[AnimeSaturn := slot ls' (episode_number r)]> ∅) ∧
       (is_Some (last_with (episode_number r) la') ∨
        is_Some (last_with (episode_number r) ls'))) →
    (∀ n, is_Some (last_with n la') ∨ is_Some (last_with n ls') →
          ∃ r, r ∈ out' ∧ episode_number r = n) →
    (∀ n, last_with n la = last_with n la') →
    (∀ n, last_with n ls = last_with n ls') →
    ∀ r, r ∈ out → r ∈ out').
  { clear. intros la ls la' ls' out out' Hrec Hrec' Hall' Hla Hls r Hr.
    destruct (Hrec r Hr) as [Hsrc Hsome].
    rewrite Hla, Hls in Hsome.
    destruct (Hall' _ Hsome) as (r' & Hr' & Hn).
    destruct (Hrec' r' Hr') as [Hsrc' _].
    replace r with r'; [done|].
    destruct r as [n m], r' as [n' m']. simpl in *. subst n'.
    f_equal. rewrite Hsrc, Hsrc'. unfold slot. by rewrite Hla, Hls. }
  intros r. split.
  - by apply (Hone la ls la' ls').
  - by apply (Hone la' ls' la ls).
Qed.

Lemma numbers_unique items e e' n :
  NoDup (numbers items) → e ∈ items → e' ∈ items →
  raw_episode_number e = Some n → raw_episode_number e' = Some n → e = e'.
Proof.
  unfold numbers. induction items as [|ep items IH]; simpl.
  - by intros _ ?%elem_of_nil.
  - intros Hnd He He' Hn Hn'.
    assert (Hin : ∀ x, x ∈ items → raw_episode_number x = Some n →
                       n ∈ omap raw_episode_number items).
    { intros x Hx Hxn. apply list_elem_of_omap. eauto. }
    apply elem_of_cons in He as [->|He], He' as [->|He']; [done| | |].
    + rewrite Hn in Hnd. apply NoDup_cons in Hnd as [Hnot _].
      destruct Hnot. by eapply Hin.
    + rewrite Hn' in Hnd. apply NoDup_cons in Hnd as [Hnot _].
      destruct Hnot. by eapply Hin.
    + apply IH; [|done..].
      destruct (raw_episode_number ep); [by apply NoDup_cons in Hnd as [_ ?]|done].
Qed.

Lemma last_with_Permutation items items' n :
  items' ≡ₚ items → NoDup (numbers items) →
  last_with n items' = last_with n items.
Proof.
  intros Hperm Hnd.
  destruct (last_with n items') as [e'|] eqn:He'.
  - apply last_with_Some in He' as [Hin' Hn'].
    rewrite Hperm in Hin'.
    destruct (proj2 (last_with_is_Some n items)) as [e He]; [by eauto|].
    rewrite He. f_equal.
    apply last_with_Some in He as [Hin Hn].
    by eapply numbers_unique.
  - destruct (last_with n items) as [e|] eqn:He; [|done].
    apply last_with_Some in He as [Hin Hn].
    rewrite <- Hperm in Hin.
    destruct (proj2 (last_with_is_Some n items')) as [x Hx]; [by eauto|].
    congruence.
Qed.

Lemma season_entries_numbers own other items recs :
  Forall2 (season_entry own other) items recs →
  numbers items = episode_number <$> recs.
Proof.
  unfold numbers. induction 1 as [|ep r items recs [Hn _] _ IH]; [done|].
  change (omap raw_episode_number (ep :: items))
    with (match raw_episode_number ep with
          | Some n => n :: omap raw_episode_number items
          | None => omap raw_episode_number items
          end).
  rewrite Hn, fmap_cons. by f_equal.
Qed.

Lemma usable_is_Some {A} supplied (r : pyres A) :
  is_Some (usable supplied r) ↔ truthy supplied = true ∧ is_exc r = false.
Proof.
  unfold usable. destruct (truthy supplied), r; simpl; split;
    try (by intros [? ?]); try (by intros [? [=]]); try done; by eauto.
Qed.

(** What holds of an entry left at its default. *)
Lemma no_stream_world (P : Prop) :
  ¬ P →
  (stream_available no_stream = true ↔ P) ∧
  (stream_available no_stream = false →
   stream_url no_stream = None ∧ embed no_stream = None) ∧
  (is_Some (embed no_stream) ↔ truthy (stream_url no_stream) = true).
Proof.
  intros HP. simpl. split; [by split|]. split; [done|].
  split; [by intros [? ?]|done].
Qed.

Lemma no_stream_saturn (P : Prop) :
  ¬ P →
  (stream_available no_stream = true ↔ P) ∧
  (stream_available no_stream = false →
   stream_url no_stream = None ∧ embed no_stream = None) ∧
  (truthy (stream_url no_stream) = true → truthy (embed no_stream) = true).
Proof. intros HP. simpl. split; [by split|]. by split. Qed.

(** The handler's entry for an item is the one the specification words
    describe. *)
Lemma availability_entry_for ep : availability ep = entry_for ep.
Proof.
  unfold availability, entry_for, reference_url, item_id, py_or, dict_get.
  destruct (raw_url ep) as [[[|c u]|]|], (raw_stream_url ep) as [[v|]|],
    (raw_id ep) as [i|]; reflexivity.
Qed.

Lemma slot_last_entry items n : slot items n = last_entry items n.
Proof.
  unfold slot, last_entry.
  destruct (last_with n items); [apply availability_entry_for | done].
Qed.

Lemma last_with_last_item n items e :
  last_with n items = Some e ↔ last_item n items e.
Proof.
  split.
  - revert e. induction items as [|ep items IH]; intros e; simpl; [done|].
    destruct (last_with n items) as [e'|] eqn:Hlast.
    + intros [= <-]. destruct (IH e' eq_refl) as (before & after & -> & Hn & Ha).
      by exists (ep :: before), after.
    + case_bool_decide as Hep; [|done]. intros [= <-].
      exists [], items. split; [done|]. split; [done|].
      intros e' He' Hn'.
      destruct (proj2 (last_with_is_Some n items)) as [x Hx]; [by eauto|].
      congruence.
  - intros (before & after & -> & Hn & Ha). by apply last_with_app.
Qed.

Lemma strictly_sorted_fmap {A} (key : A → Z) l :
  StronglySorted (key_lt key) l ↔ StronglySorted Z.lt (key <$> l).
Proof.
  induction l as [|x l IH]; [by split; constructor|].
  rewrite fmap_cons. split; intros H; inversion_clear H as [|? ? Hs Hall].
  - constructor; [by apply IH|]. apply Forall_fmap.
    eapply Forall_impl; [exact Hall|]. by intros y Hy.
  - constructor; [by apply IH|]. apply Forall_forall. intros y Hy.
    rewrite Forall_forall in Hall. apply Hall. by apply list_elem_of_fmap_2.
Qed.

Lemma reported_as_inj source failed ep r r' :
  reported_as source failed ep r → reported_as source failed ep r' → r = r'.
Proof.
  intros [Hn Hs] [Hn' Hs']. destruct r, r'. simpl in *. f_equal; congruence.
Qed.

Lemma season_entry_reported_as own other ep r :
  season_entry own other ep r ↔ reported_as own other ep r.
Proof. unfold season_entry, reported_as. by rewrite availability_entry_for. Qed.

Lemma reported_as_numbers source failed items recs :
  Forall2 (reported_as source failed) items recs →
  numbers items = episode_number <$> recs.
Proof.
  intros H. apply (season_entries_numbers source failed).
  eapply Forall2_impl; [exact H|]. intros ? ?. apply season_entry_reported_as.
Qed.

Lemma reported_as_exists source failed items :
  Forall well_formed items →
  ∃ recs, Forall2 (reported_as source failed) items recs.
Proof.
  induction 1 as [|ep items [[n Hn] _] _ [recs IH]]; [by exists []|].
  exists ({| episode_number := n;
             sources := <[source := entry_for ep]>
                          (<[failed := unavailable]> ∅) |} :: recs).
  by constructor.
Qed.

(** A strictly ascending sequence of complete items is answered item by
    item. *)
Lemma survivor_exact source failed items out :
  Forall well_formed items →
  StronglySorted (key_lt episode_number) out →
  (∀ r, r ∈ out →
     ∃ e, last_item (episode_number r) items e ∧ reported_as source failed e r) →
  (∀ e, e ∈ items →
     ∃ r, r ∈ out ∧ raw_episode_number e = Some (episode_number r)) →
  StronglySorted Z.lt (numbers items) →
  Forall2 (reported_as source failed) items out.
Proof.
  intros Hwf Hs Hrec Hall Hasc.
  destruct (reported_as_exists source failed items Hwf) as [recs Hrecs].
  replace out with recs; [done|].
  pose proof (reported_as_numbers _ _ _ _ Hrecs) as Hnums.
  assert (Hnd : NoDup (numbers items)).
  { rewrite Hnums. apply strictly_sorted_NoDup, strictly_sorted_fmap.
    by rewrite <- Hnums. }
  apply (strictly_sorted_ext episode_number); [|done|].
  { apply strictly_sorted_fmap. by rewrite <- Hnums. }
  intros r. split.
  - intros Hr. apply list_elem_of_lookup in Hr as [i Hi].
    destruct (Forall2_lookup_r _ _ _ _ _ Hrecs Hi) as (e & He & Her).
    apply list_elem_of_lookup_2 in He.
    destruct (Hall e He) as (r' & Hr' & Hn').
    destruct (Hrec r' Hr') as (e' & (before & after & -> & Hn'' & _) & Her').
    replace r with r'; [done|].
    assert (e' = e) as ->.
    { eapply numbers_unique; [exact Hnd| |exact He|exact Hn''|exact Hn'].
      apply elem_of_app. right. apply list_elem_of_here. }
    by eapply reported_as_inj.
  - intros Hr.
    destruct (Hrec r Hr) as (e & (before & after & Heq & Hn & _) & Her).
    assert (He : e ∈ items).
    { rewrite Heq. apply elem_of_app. right. apply list_elem_of_here. }
    apply list_elem_of_lookup in He as [i Hi].
    destruct (Forall2_lookup_l _ _ _ _ _ Hrecs Hi) as (r' & Hr' & Her').
    replace r with r'; [by eapply list_elem_of_lookup_2|].
    by eapply reported_as_inj.
Qed.

Lemma merge_lists_survivor_saturn items out :
  merge_lists [] items = Val out →
  survivor_episodes AnimeSaturn AnimeWorld items out.
Proof.
  pose proof AnimeWorld_ne_AnimeSaturn as Hne.
  intros (Hwf & Hs & Hrec & Hall)%merge_lists_Val.
  assert (Hrec' : ∀ r, r ∈ out →
    ∃ e, last_item (episode_number r) items e ∧
         reported_as AnimeSaturn AnimeWorld e r).
  { intros r Hr. destruct (Hrec r Hr) as [Hsrc [[? [=]]|[e He]]].
    exists e. split; [by apply last_with_last_item|].
    split; [by apply last_with_Some in He as [_ ?]|].
    rewrite Hsrc. unfold slot. rewrite He. simpl.
    rewrite availability_entry_for. map_ext. }
  assert (Hall' : ∀ e, e ∈ items →
    ∃ r, r ∈ out ∧ raw_episode_number e = Some (episode_number r)).
  { intros e He. rewrite Forall_forall in Hwf. destruct (Hwf e He) as [[n Hn] _].
    destruct (Hall n) as (r & Hr & <-); [|by eauto].
    right. apply last_with_is_Some. eauto. }
  split; [exact (proj1 (strictly_sorted_fmap episode_number out) Hs)|].
  split; [done|]. split; [done|].
  by apply survivor_exact.
Qed.

Lemma merge_lists_survivor_world items out :
  merge_lists items [] = Val out →
  survivor_episodes AnimeWorld AnimeSaturn items out.
Proof.
  pose proof AnimeWorld_ne_AnimeSaturn as Hne.
  intros (Hwf & Hs & Hrec & Hall)%merge_lists_Val.
  rewrite app_nil_r in Hwf.
  assert (Hrec' : ∀ r, r ∈ out →
    ∃ e, last_item (episode_number r) items e ∧
         reported_as AnimeWorld AnimeSaturn e r).
  { intros r Hr. destruct (Hrec r Hr) as [Hsrc [[e He]|[? [=]]]].
    exists e. split; [by apply last_with_last_item|].
    split; [by apply last_with_Some in He as [_ ?]|].
    rewrite Hsrc. unfold slot. rewrite He. simpl.
    by rewrite availability_entry_for. }
  assert (Hall' : ∀ e, e ∈ items →
    ∃ r, r ∈ out ∧ raw_episode_number e = Some (episode_number r)).
  { intros e He. rewrite Forall_forall in Hwf. destruct (Hwf e He) as [[n Hn] _].
    destruct (Hall n) as (r & Hr & <-); [|by eauto].
    left. apply last_with_is_Some. eauto. }
  split; [exact (proj1 (strictly_sorted_fmap episode_number out) Hs)|].
  split; [done|]. split; [done|].
  by apply survivor_exact.
Qed.

Lemma map_res_reported_as own other items recs :
  map_res (season_episode own other) items = Val recs →
  Forall2 (reported_as own other) items recs.
Proof.
  intros H%map_res_season. eapply Forall2_impl; [exact H|].
  intros ? ?. apply season_entry_reported_as.
Qed.

End MoreFacts.

(** * The claims on what a source's items become *)

Section ItemClaims.
Context {RawSearch : Type}.
Variables world saturn : Scraper RawSearch.

(** C7.  When a source's sequence holds several items with one episode
    number, the record of that number carries in that source's slot
    available=true with the reference URL and the id of the last such item;
    the slot of the other source is what the other source's own sequence
    gives for that number.  In every record each source's slot is
    determined by that source's own sequence alone. *)
Theorem get_episodes_last_write_wins (AW AS : option pystr)
    (out : list EpisodeResult) :
  (get_episodes world saturn AW AS).2 = Ok out →
  (∀ items before e after n,
     truthy AW = true →
     scraper_get_episodes world (the_str AW) = Val items →
     items = before ++ e :: after →
     raw_episode_number e = Some n →
     (∀ e', e' ∈ after → raw_episode_number e' ≠ Some n) →
     ∃ r, r ∈ out ∧ episode_number r = n ∧
          sources r !! AnimeWorld
          = Some {| available := true; url := reference_url e;
                    id_ := item_id e |} ∧
          sources r !! AnimeSaturn
          = Some (last_entry
                    (reported AS (scraper_get_episodes saturn (the_str AS))) n))
  ∧
  (∀ items before e after n,
     truthy AS = true →
     scraper_get_episodes saturn (the_str AS) = Val items →
     items = before ++ e :: after →
     raw_episode_number e = Some n →
     (∀ e', e' ∈ after → raw_episode_number e' ≠ Some n) →
     ∃ r, r ∈ out ∧ episode_number r = n ∧
          sources r !! AnimeSaturn
          = Some {| available := true; url := reference_url e;
                    id_ := item_id e |} ∧
          sources r !! AnimeWorld
          = Some (last_entry
                    (reported AW (scraper_get_episodes world (the_str AW))) n))
  ∧
  (∀ r, r ∈ out →
     sources r !! AnimeWorld
     = Some (last_entry (reported AW (scraper_get_episodes world (the_str AW)))
               (episode_number r)) ∧
     sources r !! AnimeSaturn
     = Some (last_entry (reported AS (scraper_get_episodes saturn (the_str AS)))
               (episode_number r))).
Proof.
  pose proof AnimeWorld_ne_AnimeSaturn as Hne.
  intros (_ & _ & Hrec & Hall)%get_episodes_Ok%merge_lists_Val.
  assert (Hslots : ∀ r, r ∈ out →
     sources r !! AnimeWorld
     = Some (last_entry (reported AW (scraper_get_episodes world (the_str AW)))
               (episode_number r)) ∧
     sources r !! AnimeSaturn
     = Some (last_entry (reported AS (scraper_get_episodes saturn (the_str AS)))
               (episode_number r))).
  { intros r Hr. destruct (Hrec r Hr) as [-> _].
    rewrite lookup_insert_eq, lookup_insert_ne, lookup_insert_eq by done.
    by rewrite !slot_last_entry. }
  split; [|split; [|done]];
    intros items before e after n Hsup Hval -> Hn Hafter;
    pose proof (last_with_app n before e after Hn Hafter) as Hlast;
    pose proof (reported_Val _ _ _ Hsup Hval) as Hrep.
  - destruct (Hall n) as (r & Hr & <-); [left; by rewrite Hrep, Hlast|].
    exists r. split; [done|]. split; [done|].
    destruct (Hslots r Hr) as [-> ->]. rewrite Hrep.
    unfold last_entry at 1. by rewrite Hlast.
  - destruct (Hall n) as (r & Hr & <-); [right; by rewrite Hrep, Hlast|].
    exists r. split; [done|]. split; [done|].
    destruct (Hslots r Hr) as [-> ->]. rewrite Hrep.
    unfold last_entry at 1. by rewrite Hlast.
Qed.

(** C1, as the code has it.  Both sources are named, exactly one provider
    call fails, and every item of the other provider's list has the keys
    ["episode_number"] and ["id"]: both handlers answer without an
    exception and every returned record marks the failed source
    unavailable with no url and no id.  The seasons answer holds the
    surviving source's items one for one, in the reported order.  The
    episodes answer holds one record per reported episode number, in
    ascending order, with the reference URL and id of the last item
    reported with that number; it is the reported sequence itself when that
    sequence is strictly ascending.  Both answers are those of a request
    naming only the surviving source. *)
Theorem one_source_fails (AW AS : option pystr) (exc : pyexc)
    (items : list RawEpisode) :
  truthy AW = true → truthy AS = true →
  Forall well_formed items →
  (scraper_get_episodes world (the_str AW) = Exc exc →
   scraper_get_episodes saturn (the_str AS) = Val items →
   (∃ out, (get_episodes world saturn AW AS).2 = Ok out ∧
           survivor_episodes AnimeSaturn AnimeWorld items out) ∧
   (∃ recs, (get_seasons world saturn AW AS).2
            = Ok (<[AnimeWorld := SeasonList []]>
                    (<[AnimeSaturn := SeasonDict (<[str "S1" := recs]> ∅)]> ∅)) ∧
            Forall2 (reported_as AnimeSaturn AnimeWorld) items recs) ∧
   (get_episodes world saturn AW AS).2 = (get_episodes world saturn None AS).2 ∧
   (get_seasons world saturn AW AS).2 = (get_seasons world saturn None AS).2)
  ∧
  (scraper_get_episodes saturn (the_str AS) = Exc exc →
   scraper_get_episodes world (the_str AW) = Val items →
   (∃ out, (get_episodes world saturn AW AS).2 = Ok out ∧
           survivor_episodes AnimeWorld AnimeSaturn items out) ∧
   (∃ recs, (get_seasons world saturn AW AS).2
            = Ok (<[AnimeWorld := SeasonList recs]>
                    (<[AnimeSaturn := SeasonDict ∅]> ∅)) ∧
            Forall2 (reported_as AnimeWorld AnimeSaturn) items recs) ∧
   (get_episodes world saturn AW AS).2 = (get_episodes world saturn AW None).2 ∧
   (get_seasons world saturn AW AS).2 = (get_seasons world saturn AW None).2).
Proof.
  intros Haw Has Hwf.
  rewrite (get_episodes_supplied _ _ AW AS), (get_seasons_supplied _ _ AW AS)
    by by rewrite Haw.
  rewrite (get_episodes_supplied _ _ None AS), (get_seasons_supplied _ _ None AS)
    by done.
  rewrite (get_episodes_supplied _ _ AW None), (get_seasons_supplied _ _ AW None)
    by by rewrite Haw.
  rewrite !seasons_body_gathered. unfold reported.
  rewrite !(usable_not_supplied None) by done.
  split; intros -> ->; rewrite usable_Exc; unfold usable;
    rewrite ?Haw, ?Has; simpl.
  - split; [|split; [|done]].
    + destruct (merge_lists_well_formed [] items Hwf) as [out Hout].
      exists out. rewrite Hout. split; [done|].
      by apply merge_lists_survivor_saturn.
    + destruct (map_res_season_well_formed AnimeSaturn AnimeWorld items Hwf)
        as [recs Hrecs].
      exists recs. rewrite Hrecs. split; [done|]. by apply map_res_reported_as.
  - split; [|split; [|done]].
    + destruct (merge_lists_well_formed items []) as [out Hout];
        [by rewrite app_nil_r|].
      exists out. rewrite Hout. split; [done|].
      by apply merge_lists_survivor_world.
    + destruct (map_res_season_well_formed AnimeWorld AnimeSaturn items Hwf)
        as [recs Hrecs].
      exists recs. rewrite Hrecs. split; [done|]. by apply map_res_reported_as.
Qed.

End ItemClaims.

(** C7: AnimeWorld lists episode 1 twice, AnimeSaturn once with a stream
    URL only. *)
Lemma get_episodes_last_write_wins_witness :
  let older := item_url 1 "old" "https://aw/old" in
  let newer := item_url 1 "new" "https://aw/new" in
  let world := episodes_scraper [older; newer; item 2 "a2"] in
  let saturn := episodes_scraper [item_stream 1 "b1" "https://as/1"] in
  let from_new := {| available := true; url := Some (str "https://aw/new");
                     id_ := Some (str "new") |} in
  let from_b1 := {| available := true; url := Some (str "https://as/1");
                    id_ := Some (str "b1") |} in
  let out := [ record 1 from_new from_b1;
               record 2 (by_id "a2") unavailable ] in
  (get_episodes world saturn some_aw some_as).2 = Ok out ∧
  ∃ r, r ∈ out ∧ episode_number r = 1 ∧
       sources r !! AnimeWorld = Some from_new ∧
       sources r !! AnimeSaturn = Some from_b1.
Proof.
  intros older newer world saturn from_new from_b1 out.
  assert (H : (get_episodes world saturn some_aw some_as).2 = Ok out)
    by (vm_compute; reflexivity).
  split; [exact H|].
  destruct (get_episodes_last_write_wins world saturn some_aw some_as out H)
    as (Hworld & _ & _).
  apply (Hworld [older; newer; item 2 "a2"] [older] newer [item 2 "a2"] 1);
    try reflexivity.
  intros e' He'. apply list_elem_of_singleton in He'. subst e'. discriminate.
Defined.

(** C1: AnimeWorld is down, AnimeSaturn answers two items in ascending
    order. *)
Lemma one_source_fails_witness :
  let items := [item 1 "b1"; item_url 2 "b2" "https://as/2"] in
  let saturn := episodes_scraper items in
  (∃ out, (get_episodes down saturn some_aw some_as).2 = Ok out ∧
          survivor_episodes AnimeSaturn AnimeWorld items out) ∧
  (∃ recs, (get_seasons down saturn some_aw some_as).2
           = Ok (<[AnimeWorld := SeasonList []]>
                   (<[AnimeSaturn := SeasonDict (<[str "S1" := recs]> ∅)]> ∅)) ∧
           Forall2 (reported_as AnimeSaturn AnimeWorld) items recs) ∧
  (get_episodes down saturn some_aw some_as).2
  = (get_episodes down saturn None some_as).2 ∧
  (get_seasons down saturn some_aw some_as).2
  = (get_seasons down saturn None some_as).2.
Proof.
  intros items saturn.
  apply (proj1 (one_source_fails down saturn some_aw some_as
                  (Exception (str "timeout")) items
                  eq_refl eq_refl
                  ltac:(repeat constructor; eexists; reflexivity)));
    reflexivity.
Defined.

(** C1 as stated fails.  With both sources named and AnimeWorld down, a
    surviving item without ["id"] makes both handlers answer 500; and a
    surviving sequence that is out of order and repeats episode 1 is
    answered in ascending order with the earlier item for episode 1
    gone. *)
Lemma one_source_fails_not_for_every_request :
  (get_episodes down (episodes_scraper [item_no_id 1]) some_aw some_as).2
  = HTTPException 500 (str "Failed to get episodes: 'id'") ∧
  (get_seasons down (episodes_scraper [item_no_id 1]) some_aw some_as).2
  = HTTPException 500 (str "Failed to get seasons: 'id'") ∧
  (get_episodes down
     (episodes_scraper [item 2 "b2"; item 1 "old"; item 1 "new"])
     some_aw some_as).2
  = Ok [ record 1 unavailable (by_id "new");
         record 2 unavailable (by_id "b2") ].
Proof.
  split; [vm_compute; reflexivity|].
  split; vm_compute; reflexivity.
Qed.

(** The answer of the C1 instance above, written out. *)
Example one_source_fails_answer :
  (get_episodes down
     (episodes_scraper [item 1 "b1"; item_url 2 "b2" "https://as/2"])
     some_aw some_as).2
  = Ok [ record 1 unavailable (by_id "b1");
         record 2 unavailable
           {| available := true; url := Some (str "https://as/2");
              id_ := Some (str "b2") |} ].
Proof. vm_compute. reflexivity. Qed.


Section Extras.
Context {RawSearch SearchResult : Type}.
Variables world saturn : Scraper RawSearch.
Variable detect_duplicates :
  list RawSearch → list RawSearch → pyres (list SearchResult).

(** X1.  A handler taking source identifiers answers 400 and issues no
    provider operation when neither identifier is given (absent or empty);
    otherwise it issues one operation per named source, AnimeWorld first,
    with the identifier as given, and never answers 400.  The seasons
    handler issues the same operations as the episodes handler. *)
Theorem handlers_validate_ids (AW AS : option pystr) :
  (truthy AW = false → truthy AS = false →
   get_episodes world saturn AW AS
   = ([], HTTPException 400
            (str "At least one source ID (AW or AS) must be provided")) ∧
   get_seasons world saturn AW AS
   = ([], HTTPException 400
            (str "At least one source ID (AW or AS) must be provided")) ∧
   get_stream_urls world saturn AW AS
   = ([], HTTPException 400
            (str "At least one episode ID (AW or AS) must be provided")))
  ∧
  (truthy AW || truthy AS = true →
   (get_episodes world saturn AW AS).1 = named_calls m_get_episodes AW AS ∧
   (get_seasons world saturn AW AS).1 = named_calls m_get_episodes AW AS ∧
   (get_stream_urls world saturn AW AS).1 = named_calls m_get_stream_url AW AS ∧
   ∀ detail,
     (get_episodes world saturn AW AS).2 ≠ HTTPException 400 detail ∧
     (get_seasons world saturn AW AS).2 ≠ HTTPException 400 detail ∧
     (get_stream_urls world saturn AW AS).2 ≠ HTTPException 400 detail).
Proof.
  split.
  - intros Haw Has. unfold get_episodes, get_seasons, get_stream_urls.
    by rewrite Haw, Has.
  - intros Hsup.
    rewrite get_episodes_supplied, get_seasons_supplied,
      get_stream_urls_supplied by done.
    unfold named_calls, episode_tasks, stream_tasks. simpl.
    repeat split; try by destruct (truthy AW), (truthy AS).
    + by destruct (merge_lists _ _).
    + by destruct (seasons_body _ _ _).
Qed.

(** X2.  For an accepted query, a provider whose search fails contributes
    the empty list: the answer is what [detect_duplicates] returns on the
    two lists, and an exception of [detect_duplicates] becomes a 500 whose
    detail is ["Search failed: "] followed by its message. *)
Theorem search_anime_degrades (q : pystr) :
  2 ≤ len (strip q) →
  let found_aw := or_empty (scraper_search world q) in
  let found_as := or_empty (scraper_search saturn q) in
  (∀ unified,
     detect_duplicates found_aw found_as = Val unified →
     (search_anime world saturn detect_duplicates q).2 = Ok unified) ∧
  (∀ msg,
     detect_duplicates found_aw found_as = Exc (Exception msg) →
     (search_anime world saturn detect_duplicates q).2
     = HTTPException 500 (str "Search failed: " ++ msg)).
Proof.
  intros Hlen found_aw found_as.
  assert (Hq : truthy_str q = true).
  { destruct q; [|done]. rewrite strip_nil in Hlen. unfold len in Hlen.
    simpl in Hlen. lia. }
  apply Z.ltb_ge in Hlen.
  unfold search_anime, search_results. rewrite Hq, Hlen. simpl.
  fold (or_empty (scraper_search world q)).
  fold (or_empty (scraper_search saturn q)).
  fold found_aw found_as.
  split; [intros unified -> | intros msg ->]; done.
Qed.

(** X3.  Only what lies between the first and the last non-blank character
    counts for the length test of the search handler: a query of blanks, or
    of one character surrounded by blanks, is rejected whatever its length;
    a query with two non-blank characters is accepted, blanks between them
    included, and is passed to the providers unstripped. *)
Theorem search_anime_blanks (q : pystr) :
  (blank q →
   search_anime world saturn detect_duplicates q
   = ([], HTTPException 400 (str "Query must be at least 2 characters long")))
  ∧
  (∀ pre c post,
     q = pre ++ c :: post → blank pre → blank post → isspace c = false →
     search_anime world saturn detect_duplicates q
     = ([], HTTPException 400 (str "Query must be at least 2 characters long")))
  ∧
  (∀ pre c mid c' post,
     q = pre ++ c :: mid ++ c' :: post →
     blank pre → blank post → isspace c = false → isspace c' = false →
     (search_anime world saturn detect_duplicates q).1
     = [Call AnimeWorld m_search q; Call AnimeSaturn m_search q]).
Proof.
  unfold search_anime. split; [|split].
  - intros Hq. rewrite (strip_blank q Hq). simpl. by rewrite orb_true_r.
  - intros pre c post -> Hpre Hpost Hc.
    rewrite (strip_one pre c post Hpre Hpost Hc). simpl. by rewrite orb_true_r.
  - intros pre c mid c' post -> Hpre Hpost Hc Hc'.
    rewrite (strip_two pre c mid c' post Hpre Hpost Hc Hc').
    assert ((len (c :: mid ++ [c']) <? 2) = false) as ->.
    { apply Z.ltb_ge. unfold len. simpl. rewrite length_app. simpl. lia. }
    assert (truthy_str (pre ++ c :: mid ++ c' :: post) = true) as ->; [|done].
    by destruct pre.
Qed.

(** X4.  The episodes handler answers a request that names a source with
    a list when every item of the sequences it reads has the keys
    ["episode_number"] and ["id"]; otherwise it answers 500 and the detail
    quotes the key missing from the first deficient item, AnimeWorld's
    sequence being read before AnimeSaturn's. *)
Theorem get_episodes_status (AW AS : option pystr) :
  truthy AW || truthy AS = true →
  let items := reported AW (scraper_get_episodes world (the_str AW))
               ++ reported AS (scraper_get_episodes saturn (the_str AS)) in
  (first_missing items = None →
   ∃ out, (get_episodes world saturn AW AS).2 = Ok out) ∧
  (∀ key, first_missing items = Some key →
   (get_episodes world saturn AW AS).2
   = HTTPException 500
       (str "Failed to get episodes: " ++ str "'" ++ key ++ str "'")).
Proof.
  intros Hsup items. rewrite get_episodes_supplied by done. simpl. split.
  - intros [out Hout]%first_missing_None%merge_lists_well_formed.
    exists out. by rewrite Hout.
  - intros key Hkey%merge_lists_missing. by rewrite Hkey.
Qed.

(** X5.  The seasons handler fails on exactly the requests on which the
    episodes handler fails, quoting the same missing key: it answers with a
    body when every item read has ["episode_number"] and ["id"], and with
    a 500 naming the first missing key otherwise. *)
Theorem get_seasons_status (AW AS : option pystr) :
  truthy AW || truthy AS = true →
  let items := reported AW (scraper_get_episodes world (the_str AW))
               ++ reported AS (scraper_get_episodes saturn (the_str AS)) in
  (first_missing items = None →
   ∃ body, (get_seasons world saturn AW AS).2 = Ok body) ∧
  (∀ key, first_missing items = Some key →
   (get_seasons world saturn AW AS).2
   = HTTPException 500
       (str "Failed to get seasons: " ++ str "'" ++ key ++ str "'")) ∧
  ((∃ body, (get_seasons world saturn AW AS).2 = Ok body)
   ↔ (∃ out, (get_episodes world saturn AW AS).2 = Ok out)).
Proof.
  intros Hsup items.
  rewrite get_seasons_supplied, get_episodes_supplied by done. simpl.
  split; [|split].
  - intros [body Hbody]%seasons_body_well_formed. exists body. by rewrite Hbody.
  - intros key Hkey%seasons_body_missing. by rewrite Hkey.
  - destruct (first_missing items) as [key|] eqn:Hfm.
    + rewrite (seasons_body_missing _ _ _ _ _ Hfm).
      rewrite (merge_lists_missing _ _ key Hfm). simpl.
      split; intros [? [=]].
    + destruct (seasons_body_well_formed _ _ _ _ Hfm) as [body ->].
      apply first_missing_None, merge_lists_well_formed in Hfm as [out ->].
      simpl. split; eauto.
Qed.

(** X6.  The episodes handler returns one record per distinct episode
    number reported by the sources it used: a number is in the answer
    exactly when one of the sequences has it, the answer is as long as
    there are distinct numbers, hence at most as long as the two sequences
    together. *)
Theorem get_episodes_numbers (AW AS : option pystr) (out : list EpisodeResult) :
  (get_episodes world saturn AW AS).2 = Ok out →
  let la := reported AW (scraper_get_episodes world (the_str AW)) in
  let ls := reported AS (scraper_get_episodes saturn (the_str AS)) in
  (∀ n, n ∈ episode_number <$> out ↔ n ∈ numbers la ∨ n ∈ numbers ls) ∧
  length out = size (list_to_set (numbers la ++ numbers ls) : gset Z) ∧
  (length out ≤ length la + length ls)%nat.
Proof.
  intros (_ & Hs & Hrec & Hall)%get_episodes_Ok%merge_lists_Val la ls.
  fold la ls in Hrec, Hall.
  assert (Hmem : ∀ n, n ∈ episode_number <$> out
                      ↔ n ∈ numbers la ∨ n ∈ numbers ls).
  { intros n. rewrite !elem_of_numbers, list_elem_of_fmap. split.
    - intros (r & -> & Hr). by destruct (Hrec r Hr).
    - intros (r & Hr & <-)%Hall. eauto. }
  pose proof (strictly_sorted_NoDup _ _ Hs) as Hnd.
  split; [done|].
  rewrite <- (length_fmap episode_number out).
  split.
  - rewrite <- (size_list_to_set (C:=gset Z)) by done.
    f_equal. apply set_eq. intros n.
    rewrite !elem_of_list_to_set, elem_of_app. apply Hmem.
  - pose proof (length_numbers la). pose proof (length_numbers ls).
    assert (episode_number <$> out ⊆+ numbers la ++ numbers ls) as Hsub.
    { apply NoDup_submseteq; [done|]. intros n. rewrite elem_of_app. apply Hmem. }
    apply submseteq_length in Hsub. rewrite length_app in Hsub. lia.
Qed.

(** X7.  In every record of the episodes answer the sources mapping has
    exactly the keys AnimeWorld and AnimeSaturn; an entry that is not
    available has neither url nor id; and a source's entry is available
    exactly when that source's sequence has the record's episode number. *)
Theorem get_episodes_entries (AW AS : option pystr) (out : list EpisodeResult)
    (r : EpisodeResult) :
  (get_episodes world saturn AW AS).2 = Ok out →
  r ∈ out →
  dom (sources r) = {[AnimeWorld; AnimeSaturn]} ∧
  (∀ source entry,
     sources r !! source = Some entry → available entry = false →
     url entry = None ∧ id_ entry = None) ∧
  (∀ entry,
     sources r !! AnimeWorld = Some entry →
     (available entry = true
      ↔ episode_number r
        ∈ numbers (reported AW (scraper_get_episodes world (the_str AW))))) ∧
  (∀ entry,
     sources r !! AnimeSaturn = Some entry →
     (available entry = true
      ↔ episode_number r
        ∈ numbers (reported AS (scraper_get_episodes saturn (the_str AS))))).
Proof.
  pose proof AnimeWorld_ne_AnimeSaturn as Hne.
  intros (_ & _ & Hrec & _)%get_episodes_Ok%merge_lists_Val Hr.
  destruct (Hrec r Hr) as [-> _].
  assert (Hslot : ∀ items n,
    (available (slot items n) = false →
     url (slot items n) = None ∧ id_ (slot items n) = None) ∧
    (available (slot items n) = true ↔ n ∈ numbers items)).
  { intros items n. rewrite elem_of_numbers. unfold slot.
    destruct (last_with n items); simpl;
      (split; [done | split; [by eauto | try done; by intros [? ?]]]). }
  split; [|split; [|split]].
  - rewrite !dom_insert_L, dom_empty_L. set_solver.
  - intros source entry. rewrite lookup_insert.
    case_decide; [intros [= <-]; apply Hslot|].
    rewrite lookup_insert. case_decide; [intros [= <-]; apply Hslot|].
    by rewrite lookup_empty.
  - intros entry. rewrite lookup_insert_eq. intros [= <-]. apply Hslot.
  - intros entry. rewrite lookup_insert_ne, lookup_insert_eq by done.
    intros [= <-]. apply Hslot.
Qed.


(** X9.  Reordering the items of a source whose episode numbers are
    pairwise distinct does not change the episodes answer. *)
Theorem get_episodes_reordered (world' saturn' : Scraper RawSearch)
    (AW AS : option pystr) (out : list EpisodeResult) :
  truthy AW || truthy AS = true →
  (get_episodes world saturn AW AS).2 = Ok out →
  reported AW (scraper_get_episodes world' (the_str AW))
  ≡ₚ reported AW (scraper_get_episodes world (the_str AW)) →
  reported AS (scraper_get_episodes saturn' (the_str AS))
  ≡ₚ reported AS (scraper_get_episodes saturn (the_str AS)) →
  NoDup (numbers (reported AW (scraper_get_episodes world (the_str AW)))) →
  NoDup (numbers (reported AS (scraper_get_episodes saturn (the_str AS)))) →
  (get_episodes world' saturn' AW AS).2 = Ok out.
Proof.
  intros Hsup Hout%get_episodes_Ok Hpa Hps Hna Hns.
  rewrite get_episodes_supplied by done. simpl.
  pose proof Hout as (Hwf & _)%merge_lists_Val.
  rewrite <- Hpa, <- Hps in Hwf.
  destruct (merge_lists_well_formed _ _ Hwf) as [out' Hout'].
  rewrite Hout'. simpl. f_equal. symmetry.
  eapply merge_lists_last_items; [done..| |];
    intros n; symmetry; by apply last_with_Permutation.
Qed.

(** X10.  When every provider named in the request fails, the episodes
    handler answers with the empty list and the seasons handler with an
    empty AnimeWorld list and an AnimeSaturn dictionary without seasons;
    neither answers with an error. *)
Theorem all_named_providers_fail (AW AS : option pystr) :
  truthy AW || truthy AS = true →
  (truthy AW = true →
   is_exc (scraper_get_episodes world (the_str AW)) = true) →
  (truthy AS = true →
   is_exc (scraper_get_episodes saturn (the_str AS)) = true) →
  (get_episodes world saturn AW AS).2 = Ok [] ∧
  (get_seasons world saturn AW AS).2
  = Ok (<[AnimeWorld := SeasonList []]> (<[AnimeSaturn := SeasonDict ∅]> ∅)).
Proof.
  intros Hsup Hw Hs.
  rewrite get_episodes_supplied, get_seasons_supplied by done. simpl.
  rewrite seasons_body_gathered. unfold reported, usable.
  destruct (truthy AW), (truthy AS); try done;
    repeat match goal with
           | H : true = true → _ |- _ => specialize (H eq_refl)
           end;
    repeat match goal with
           | H : is_exc ?r = true |- _ => destruct r; [done|]; clear H
           end; done.
Qed.

(** X11.  The stream handler never answers 500: whatever the providers
    return or raise, a request naming a source is answered with a body
    that has exactly the entries AnimeWorld and AnimeSaturn. *)
Theorem get_stream_urls_always_answers (AW AS : option pystr) :
  truthy AW || truthy AS = true →
  ∃ body, (get_stream_urls world saturn AW AS).2 = Ok body ∧
          dom body = {[AnimeWorld; AnimeSaturn]}.
Proof.
  intros Hsup. rewrite get_stream_urls_supplied by done.
  eexists. split; [done|].
  rewrite !dom_insert_L, dom_empty_L. set_solver.
Qed.

(** X12.  In the stream answer a source is available exactly when it was
    named and its provider returned a non-empty string or a non-empty
    dictionary; an entry that is not available has neither URL nor embed.
    AnimeWorld's entry has an embed exactly when it has a non-empty URL;
    AnimeSaturn's entry has a non-empty embed whenever it has a non-empty
    URL. *)
Theorem get_stream_urls_availability (AW AS : option pystr)
    (body : gmap pystr StreamSource) :
  (get_stream_urls world saturn AW AS).2 = Ok body →
  (∀ entry,
     body !! AnimeWorld = Some entry →
     (stream_available entry = true
      ↔ truthy AW = true ∧
        ∃ v, scraper_get_stream_url world (the_str AW) = Val v ∧
             truthy_value v = true) ∧
     (stream_available entry = false →
      stream_url entry = None ∧ embed entry = None) ∧
     (is_Some (embed entry) ↔ truthy (stream_url entry) = true))
  ∧
  (∀ entry,
     body !! AnimeSaturn = Some entry →
     (stream_available entry = true
      ↔ truthy AS = true ∧
        ∃ v, scraper_get_stream_url saturn (the_str AS) = Val v ∧
             truthy_value v = true) ∧
     (stream_available entry = false →
      stream_url entry = None ∧ embed entry = None) ∧
     (truthy (stream_url entry) = true → truthy (embed entry) = true)).
Proof.
  pose proof AnimeWorld_ne_AnimeSaturn as Hne.
  intros ->%get_stream_urls_Ok. split; intros entry.
  - rewrite lookup_insert_eq. intros [= <-].
    unfold usable, world_stream.
    destruct (truthy AW);
      [|apply no_stream_world; by intros [? _]].
    destruct (scraper_get_stream_url world (the_str AW)) as [v|e];
      [|apply no_stream_world; by intros [_ (? & ? & _)]].
    destruct (truthy_value v) eqn:Hv;
      [|apply no_stream_world; intros [_ (? & [= <-] & ?)]; congruence].
    simpl. split; [by split; eauto|]. split; [done|].
    destruct (truthy (stream_url_of v)); split; try done; by eauto.
  - rewrite lookup_insert_ne, lookup_insert_eq by done. intros [= <-].
    unfold usable, saturn_stream.
    destruct (truthy AS);
      [|apply no_stream_saturn; by intros [? _]].
    destruct (scraper_get_stream_url saturn (the_str AS)) as [v|e];
      [|apply no_stream_saturn; by intros [_ (? & ? & _)]].
    destruct (truthy_value v) eqn:Hv;
      [|apply no_stream_saturn; intros [_ (? & [= <-] & ?)]; congruence].
    simpl. split; [by split; eauto|]. split; [done|].
    intros Hurl. rewrite Hurl, andb_true_r.
    by destruct (truthy (embed_of v)) eqn:He.
Qed.

(** X13.  The two entries of the stream answer do not influence each
    other: AnimeWorld's entry is the same whatever AnimeSaturn identifier
    and provider accompany it, and conversely. *)
Theorem get_stream_urls_independent (AW AS : option pystr)
    (body : gmap pystr StreamSource) :
  (get_stream_urls world saturn AW AS).2 = Ok body →
  (∀ (saturn' : Scraper RawSearch) AS' body',
     (get_stream_urls world saturn' AW AS').2 = Ok body' →
     body' !! AnimeWorld = body !! AnimeWorld)
  ∧
  (∀ (world' : Scraper RawSearch) AW' body',
     (get_stream_urls world' saturn AW' AS).2 = Ok body' →
     body' !! AnimeSaturn = body !! AnimeSaturn).
Proof.
  pose proof AnimeWorld_ne_AnimeSaturn as Hne.
  intros ->%get_stream_urls_Ok.
  split; intros other supplied body' ->%get_stream_urls_Ok.
  - by rewrite !lookup_insert_eq.
  - by rewrite !(lookup_insert_ne _ AnimeWorld), !lookup_insert_eq.
Qed.

(** X14.  A provider that returns a non-empty URL as a bare string and one
    that returns a dictionary holding just that URL under ["stream_url"]
    get the same stream answer, for either source.  For the empty URL they
    differ: the empty string leaves AnimeWorld unavailable, the dictionary
    makes it available with an empty URL and no embed. *)
Theorem get_stream_urls_bare_url (world' saturn' : Scraper RawSearch)
    (AW AS : option pystr) (s : pystr) :
  (s ≠ [] →
   scraper_get_stream_url world (the_str AW) = Val (PyStr s) →
   scraper_get_stream_url world' (the_str AW)
   = Val (PyDict (<[str "stream_url" := Some s]> ∅)) →
   (get_stream_urls world saturn AW AS).2
   = (get_stream_urls world' saturn AW AS).2)
  ∧
  (s ≠ [] →
   scraper_get_stream_url saturn (the_str AS) = Val (PyStr s) →
   scraper_get_stream_url saturn' (the_str AS)
   = Val (PyDict (<[str "stream_url" := Some s]> ∅)) →
   (get_stream_urls world saturn AW AS).2
   = (get_stream_urls world saturn' AW AS).2)
  ∧
  (truthy AW = true →
   scraper_get_stream_url world (the_str AW) = Val (PyStr []) →
   scraper_get_stream_url world' (the_str AW)
   = Val (PyDict (<[str "stream_url" := Some []]> ∅)) →
   ∃ body body',
     (get_stream_urls world saturn AW AS).2 = Ok body ∧
     (get_stream_urls world' saturn AW AS).2 = Ok body' ∧
     body !! AnimeWorld = Some no_stream ∧
     body' !! AnimeWorld
     = Some {| stream_available := true; stream_url := Some [];
               embed := None |}).
Proof.
  assert (Hdict : ∀ u : pystr,
    truthy_value (PyDict (<[str "stream_url" := Some u]> ∅)) = true).
  { intros u. simpl. rewrite bool_decide_false; [done|].
    intros H. apply (f_equal (λ m, m !! str "stream_url")) in H.
    by rewrite lookup_insert_eq, lookup_empty in H. }
  assert (Hurl : ∀ u : pystr,
    stream_url_of (PyDict (<[str "stream_url" := Some u]> ∅)) = Some u).
  { intros u. unfold stream_url_of, stream_get. by rewrite lookup_insert_eq. }
  assert (Hembed : ∀ u : pystr,
    embed_of (PyDict (<[str "stream_url" := Some u]> ∅)) = None).
  { intros u. unfold embed_of, stream_get.
    by rewrite lookup_insert_ne, lookup_empty. }
  split; [|split].
  - intros Hs Hw Hw'. unfold get_stream_urls.
    destruct (negb (truthy AW) && negb (truthy AS)); [done|]. simpl.
    rewrite !gather_stream_tasks, !stream_body_gathered. simpl.
    assert (world_stream (usable AW (scraper_get_stream_url world (the_str AW)))
            = world_stream
                (usable AW (scraper_get_stream_url world' (the_str AW))))
      as ->; [|done].
    unfold usable. rewrite Hw, Hw'.
    destruct (truthy AW); [|done]. unfold world_stream.
    rewrite Hdict, Hurl. simpl. by destruct s.
  - intros Hs Hw Hw'. unfold get_stream_urls.
    destruct (negb (truthy AW) && negb (truthy AS)); [done|]. simpl.
    rewrite !gather_stream_tasks, !stream_body_gathered. simpl.
    assert (saturn_stream
              (usable AS (scraper_get_stream_url saturn (the_str AS)))
            = saturn_stream
                (usable AS (scraper_get_stream_url saturn' (the_str AS))))
      as ->; [|done].
    unfold usable. rewrite Hw, Hw'.
    destruct (truthy AS); [|done]. unfold saturn_stream.
    rewrite Hdict, Hurl, Hembed. simpl. by destruct s.
  - intros Haw Hw Hw'.
    rewrite !get_stream_urls_supplied by by rewrite Haw.
    do 2 eexists. split; [done|]. split; [done|].
    rewrite !lookup_insert_eq. unfold usable. rewrite Haw, Hw, Hw'.
    unfold world_stream. rewrite Hdict, Hurl. done.
Qed.

(** X15.  The seasons answer always has the AnimeWorld list and the
    AnimeSaturn dictionary.  Both keep the provider's items one for one, in
    the provider's order, duplicates included.  The season ["S1"] is the
    only one that can occur, and it occurs exactly when AnimeSaturn was
    named and its provider call succeeded, an empty list included. *)
Theorem get_seasons_shape (AW AS : option pystr)
    (body : gmap pystr SeasonValue) :
  (get_seasons world saturn AW AS).2 = Ok body →
  ∃ recs seasons,
    body = <[AnimeWorld := SeasonList recs]>
             (<[AnimeSaturn := SeasonDict seasons]> ∅) ∧
    episode_number <$> recs
    = numbers (reported AW (scraper_get_episodes world (the_str AW))) ∧
    dom seasons ⊆ {[str "S1"]} ∧
    (is_Some (seasons !! str "S1")
     ↔ truthy AS = true ∧
       is_exc (scraper_get_episodes saturn (the_str AS)) = false) ∧
    (∀ recs', seasons !! str "S1" = Some recs' →
       episode_number <$> recs'
       = numbers (reported AS (scraper_get_episodes saturn (the_str AS)))).
Proof.
  intros Hbody%get_seasons_Ok. rewrite seasons_body_reported in Hbody.
  apply bind_Val in Hbody as (recs & Hrecs%map_res_season & Hbody).
  apply bind_Val in Hbody as (recs' & Hrecs'%map_res_season & [= <-]).
  apply season_entries_numbers in Hrecs, Hrecs'.
  eexists recs, _. split; [done|]. split; [done|].
  rewrite <- usable_is_Some.
  destruct (usable AS (scraper_get_episodes saturn (the_str AS))) as [ls|].
  - split; [by rewrite dom_insert_L, dom_empty_L; set_solver|].
    rewrite lookup_insert_eq. split; [by split; eauto|].
    by intros ? [= <-].
  - split; [by rewrite dom_empty_L|]. rewrite lookup_empty.
    split; [by split; intros [? ?]|done].
Qed.

End Extras.

(** * Further instances on the sample providers *)

(** X1: an empty identifier counts as none; one identifier, one call. *)
Lemma handlers_validate_ids_witness :
  get_episodes down down (Some []) None
  = ([], HTTPException 400
           (str "At least one source ID (AW or AS) must be provided"))
  ∧ (get_seasons down down None some_as).1
    = [Call AnimeSaturn m_get_episodes (str "naruto-as")].
Proof.
  split.
  - apply (proj1 (handlers_validate_ids down down (Some []) None));
      reflexivity.
  - apply (proj2 (handlers_validate_ids down down None some_as)).
    reflexivity.
Defined.

(** X2: AnimeWorld's search fails, AnimeSaturn finds one title. *)
Lemma search_anime_degrades_witness :
  (search_anime down (titles_scraper [str "Naruto"]) concat_titles
     (str "naruto")).2
  = Ok [str "Naruto"].
Proof.
  apply (proj1 (search_anime_degrades down (titles_scraper [str "Naruto"])
                  concat_titles (str "naruto")
                  ltac:(vm_compute; discriminate))).
  reflexivity.
Defined.

(** X3: ["  a  "] is rejected, ["a b"] is accepted. *)
Lemma search_anime_blanks_witness :
  search_anime down down concat_titles (str "  a  ")
  = ([], HTTPException 400 (str "Query must be at least 2 characters long"))
  ∧ (search_anime down down concat_titles (str "a b")).1
    = [Call AnimeWorld m_search (str "a b");
       Call AnimeSaturn m_search (str "a b")].
Proof.
  split.
  - apply (proj1 (proj2 (search_anime_blanks down down concat_titles
                           (str "  a  ")))
             (str "  ") 97%N (str "  "));
      [reflexivity | repeat constructor | repeat constructor | reflexivity].
  - apply (proj2 (proj2 (search_anime_blanks down down concat_titles
                           (str "a b")))
             [] 97%N (str " ") 98%N []);
      [reflexivity | constructor | constructor | reflexivity | reflexivity].
Defined.

(** X4: the second AnimeWorld item has no id. *)
Lemma get_episodes_status_witness :
  (get_episodes (episodes_scraper [item 1 "a1"; item_no_id 2])
     (episodes_scraper [item_no_number "b1"]) some_aw some_as).2
  = HTTPException 500 (str "Failed to get episodes: 'id'").
Proof.
  apply (proj2 (get_episodes_status
                  (episodes_scraper [item 1 "a1"; item_no_id 2])
                  (episodes_scraper [item_no_number "b1"]) some_aw some_as
                  eq_refl)
           (str "id")).
  reflexivity.
Defined.

(** X5: AnimeWorld's items are complete, AnimeSaturn's lacks its number. *)
Lemma get_seasons_status_witness :
  (get_seasons (episodes_scraper [item 1 "a1"])
     (episodes_scraper [item_no_number "b1"]) some_aw some_as).2
  = HTTPException 500 (str "Failed to get seasons: 'episode_number'").
Proof.
  apply (proj1 (proj2 (get_seasons_status
                         (episodes_scraper [item 1 "a1"])
                         (episodes_scraper [item_no_number "b1"])
                         some_aw some_as eq_refl))
           (str "episode_number")).
  reflexivity.
Defined.

(** X6: five items, three distinct numbers. *)
Lemma get_episodes_numbers_witness :
  let world := episodes_scraper [item 3 "a3"; item 1 "a1"; item 3 "a3b"] in
  let saturn := episodes_scraper [item 2 "b2"; item 1 "b1"] in
  let out := [ record 1 (by_id "a1") (by_id "b1");
               record 2 unavailable (by_id "b2");
               record 3 (by_id "a3b") unavailable ] in
  (get_episodes world saturn some_aw some_as).2 = Ok out ∧
  (4 ∈ episode_number <$> out ↔ 4 ∈ [3; 1; 3] ∨ 4 ∈ [2; 1]) ∧
  (length out ≤ 3 + 2)%nat.
Proof.
  intros world saturn out.
  assert (H : (get_episodes world saturn some_aw some_as).2 = Ok out)
    by (vm_compute; reflexivity).
  split; [exact H|].
  destruct (get_episodes_numbers world saturn some_aw some_as out H)
    as (Hmem & _ & Hlen).
  split; [exact (Hmem 4) | exact Hlen].
Defined.

(** X7: AnimeSaturn lacks episode 2. *)
Lemma get_episodes_entries_witness :
  let world := episodes_scraper [item 1 "a1"; item 2 "a2"] in
  let saturn := episodes_scraper [item 1 "b1"] in
  let r := record 2 (by_id "a2") unavailable in
  (get_episodes world saturn some_aw some_as).2
  = Ok [record 1 (by_id "a1") (by_id "b1"); r] ∧
  dom (sources r) = {[AnimeWorld; AnimeSaturn]}.
Proof.
  intros world saturn r.
  assert (H : (get_episodes world saturn some_aw some_as).2
              = Ok [record 1 (by_id "a1") (by_id "b1"); r])
    by (vm_compute; reflexivity).
  split; [exact H|].
  apply (get_episodes_entries world saturn some_aw some_as _ r H).
  apply list_elem_of_further, list_elem_of_here.
Defined.


(** X9: the same two items in the other order. *)
Lemma get_episodes_reordered_witness :
  let out := [ record 1 (by_id "a1") unavailable;
               record 2 (by_id "a2") unavailable ] in
  (get_episodes (episodes_scraper [item 1 "a1"; item 2 "a2"])
     down some_aw None).2 = Ok out ∧
  (get_episodes (episodes_scraper [item 2 "a2"; item 1 "a1"])
     down some_aw None).2 = Ok out.
Proof.
  intros out.
  assert (H : (get_episodes (episodes_scraper [item 1 "a1"; item 2 "a2"])
                 down some_aw None).2 = Ok out)
    by (vm_compute; reflexivity).
  split; [exact H|].
  apply (get_episodes_reordered
           (episodes_scraper [item 1 "a1"; item 2 "a2"]) down
           (episodes_scraper [item 2 "a2"; item 1 "a1"]) down
           some_aw None out eq_refl H).
  - apply Permutation_swap.
  - reflexivity.
  - change (NoDup [1; 2]). apply NoDup_cons. split; [|apply NoDup_singleton].
    intros Hin%list_elem_of_singleton. discriminate Hin.
  - constructor.
Defined.

(** X10: both providers are down. *)
Lemma all_named_providers_fail_witness :
  (get_episodes down down some_aw some_as).2 = Ok [] ∧
  (get_seasons down down some_aw some_as).2
  = Ok (<[AnimeWorld := SeasonList []]> (<[AnimeSaturn := SeasonDict ∅]> ∅)).
Proof.
  apply (all_named_providers_fail down down some_aw some_as);
    reflexivity.
Defined.

(** X11: both providers are down. *)
Lemma get_stream_urls_always_answers_witness :
  ∃ body, (get_stream_urls down down some_aw some_as).2 = Ok body ∧
          dom body = {[AnimeWorld; AnimeSaturn]}.
Proof.
  apply (get_stream_urls_always_answers down down some_aw some_as).
  reflexivity.
Defined.

(** X12: AnimeWorld returns the empty string, AnimeSaturn is not named. *)
Lemma get_stream_urls_availability_witness :
  let body : gmap pystr StreamSource :=
    <[AnimeWorld := no_stream]> (<[AnimeSaturn := no_stream]> ∅) in
  (get_stream_urls (stream_scraper (PyStr [])) down some_aw None).2 = Ok body ∧
  (stream_available no_stream = false →
   stream_url no_stream = None ∧ embed no_stream = None).
Proof.
  intros body.
  assert (H : (get_stream_urls (stream_scraper (PyStr [])) down
                 some_aw None).2 = Ok body)
    by (vm_compute; reflexivity).
  split; [exact H|].
  destruct (get_stream_urls_availability
              (stream_scraper (PyStr [])) down some_aw None body H)
    as [Hw _].
  destruct (Hw no_stream) as (_ & Hnone & _); [reflexivity|].
  exact Hnone.
Defined.

(** X13: AnimeWorld's entry with AnimeSaturn down and with AnimeSaturn
    answering. *)
Lemma get_stream_urls_independent_witness :
  ∃ body body',
    (get_stream_urls (stream_scraper (PyStr (str "https://aw/ep1"))) down
       some_aw None).2 = Ok body ∧
    (get_stream_urls (stream_scraper (PyStr (str "https://aw/ep1")))
       (stream_scraper stream_with_embed) some_aw some_as).2 = Ok body' ∧
    body' !! AnimeWorld = body !! AnimeWorld.
Proof.
  eexists _, _. split; [vm_compute; reflexivity|].
  split; [vm_compute; reflexivity|].
  apply (proj1 (get_stream_urls_independent
                  (stream_scraper (PyStr (str "https://aw/ep1"))) down
                  some_aw None _ eq_refl)
           (stream_scraper stream_with_embed) some_as).
  reflexivity.
Defined.

(** X14: the URL as a string and inside a dictionary. *)
Lemma get_stream_urls_bare_url_witness :
  (get_stream_urls (stream_scraper (PyStr (str "https://aw/ep1"))) down
     some_aw None).2
  = (get_stream_urls
       (stream_scraper
          (PyDict (<[str "stream_url" := Some (str "https://aw/ep1")]> ∅)))
       down some_aw None).2.
Proof.
  apply (proj1 (get_stream_urls_bare_url
                  (stream_scraper (PyStr (str "https://aw/ep1"))) down
                  (stream_scraper
                     (PyDict (<[str "stream_url"
                                  := Some (str "https://aw/ep1")]> ∅)))
                  down some_aw None (str "https://aw/ep1")));
    [discriminate | reflexivity | reflexivity].
Defined.

(** X15: AnimeSaturn answers with an empty list, AnimeWorld repeats an
    episode. *)
Lemma get_seasons_shape_witness :
  let body : gmap pystr SeasonValue :=
    <[AnimeWorld := SeasonList [ record 2 (by_id "a2") unavailable;
                                  record 1 (by_id "a1") unavailable;
                                  record 2 (by_id "a2b") unavailable ]]>
      (<[AnimeSaturn := SeasonDict (<[str "S1" := []]> ∅)]> ∅) in
  (get_seasons (episodes_scraper [item 2 "a2"; item 1 "a1"; item 2 "a2b"])
     (episodes_scraper []) some_aw some_as).2 = Ok body ∧
  ∃ recs seasons,
    body = <[AnimeWorld := SeasonList recs]>
             (<[AnimeSaturn := SeasonDict seasons]> ∅) ∧
    episode_number <$> recs = [2; 1; 2] ∧
    dom seasons ⊆ {[str "S1"]}.
Proof.
  intros body.
  assert (H : (get_seasons
                 (episodes_scraper [item 2 "a2"; item 1 "a1"; item 2 "a2b"])
                 (episodes_scraper []) some_aw some_as).2 = Ok body)
    by (vm_compute; reflexivity).
  split; [exact H|].
  destruct (get_seasons_shape _ _ some_aw some_as body H)
    as (recs & seasons & Hbody & Hnums & Hdom & _).
  exists recs, seasons. split; [exact Hbody|]. split; [exact Hnums | exact Hdom].
Defined.
